(** * Teen English Learning API: main.py and schemas.py

    A shallow embedding of the FastAPI service of this repository and the
    properties its specification states about it.

    - Python [str] values are Rocq strings read as sequences of code points
      below 256 (Latin-1); the character tables below are CPython's for that
      range.
    - Python [float] values are the rationals they denote; every arithmetic
      operation rounds its exact result to the nearest binary64 value, ties
      to even ([Binary64.RN]).  The floats the scoring handlers compute lie
      between 0 and 100.  The average of [get_progress] is computed from
      stored numbers of any size: there a float is a [pyfloat], which may
      be an infinity or NaN, and an int is kept apart from a float, as
      Python adds ints exactly.
    - [set] is stdpp's [gset], [dict] is stdpp's [gmap].
    - An exception is a value of [exn]; a computation that may raise returns
      a [result].
    - database.py is not part of the sources: the persistence gateway it
      exports is a parameter ([Gateway]) of the request handlers, and every
      call to it is recorded in the [world]. *)

From Stdlib Require Import ZArith QArith Qabs Lia String Ascii List.
From stdpp Require Import gmap strings pretty.
Import ListNotations.

Local Open Scope string_scope.

(** ** Exceptions *)

Record exn : Type := Exception { exn_class : string; exn_message : string }.

Inductive result (A : Type) : Type :=
| Ok (a : A)
| Raise (e : exn).
Arguments Ok {A} a.
Arguments Raise {A} e.

Definition ZeroDivisionError : exn := Exception "ZeroDivisionError" "division by zero".
Definition TypeError : exn := Exception "TypeError" "unsupported operand type(s) for +".
Definition OverflowError (message : string) : exn := Exception "OverflowError" message.
Definition ValidationError (field : string) : exn := Exception "ValidationError" field.

(** [str(e)] *)
Definition exn_str (e : exn) : string := exn_message e.

(** ** Python floats: binary64 arithmetic on the rationals *)

Module Binary64.

(** [n / d] rounded to the nearest integer, ties to the even one
    ([0 <= n], [0 < d]). *)
Definition div_half_even (n d : Z) : Z :=
  let q := (n / d)%Z in
  let r := (n mod d)%Z in
  match (2 * r ?= d)%Z with
  | Lt => q
  | Gt => (q + 1)%Z
  | Eq => if Z.even q then q else (q + 1)%Z
  end.

(** Every finite binary64 value is an integer multiple of [2^-1074] whose
    significand has at most 53 bits.  [round_units n d] is the binary64
    value nearest to [n / d] units of [2^-1074]: the spacing of the values
    around [n / d] is [2^s] units. *)
Definition round_units (n d : Z) : Z :=
  let s := Z.max (Z.log2 (n / d) - 52) 0 in
  (div_half_even n (d * 2 ^ s) * 2 ^ s)%Z.

Definition unit_den : positive := Eval vm_compute in (2 ^ 1074)%positive.

(** Round to nearest, ties to even (no overflow below [2^1024]). *)
Definition RN (x : Q) : Q :=
  let u := round_units (Z.abs (Qnum x) * Zpos unit_den) (Zpos (Qden x)) in
  Qred (Qmake (Z.sgn (Qnum x) * u) unit_den).

(** [a / b] on two lengths: CPython's true division of ints is correctly
    rounded. *)
Definition int_truediv (a b : nat) : result Q :=
  match b with
  | O => Raise ZeroDivisionError
  | S _ => Ok (RN (Qmake (Z.of_nat a) (Pos.of_nat b)))
  end.

(** [x * y] *)
Definition float_mul (x y : Q) : Q := RN (x * y).

Definition pow10 (n : nat) : positive := Z.to_pos (10 ^ Z.of_nat n).

(** [round(x, ndigits)]: the decimal with [ndigits] places nearest to the
    exact value of [x] (ties to even), read back as a float. *)
Definition py_round (x : Q) (ndigits : nat) : Q :=
  let p := pow10 ndigits in
  let k := div_half_even (Z.abs (Qnum x) * Zpos p) (Zpos (Qden x)) in
  RN (Qmake (Z.sgn (Qnum x) * k) p).

(** A decimal literal of the program text, [digits / 10^places]. *)
Definition literal (digits : Z) (places : nat) : Q :=
  RN (Qmake digits (pow10 places)).

End Binary64.

(** ** Python strings *)

Module PyStr.

Definition code (c : ascii) : N := N_of_ascii c.

Definition between (lo hi n : N) : bool := ((lo <=? n) && (n <=? hi))%N.

(** [c.isspace()] *)
Definition isspace (c : ascii) : bool :=
  let n := code c in
  between 9 13 n || between 28 32 n || (n =? 133)%N || (n =? 160)%N.

Definition isupper (c : ascii) : bool :=
  let n := code c in
  between 65 90 n || between 192 214 n || between 216 222 n.

(** [c.islower()] *)
Definition islower (c : ascii) : bool :=
  let n := code c in
  between 97 122 n || (n =? 170)%N || (n =? 181)%N || (n =? 186)%N
  || between 223 246 n || between 248 255 n.

Definition lower_char (c : ascii) : ascii :=
  if isupper c then ascii_of_N (code c + 32) else c.

(** [s.lower()] *)
Fixpoint lower (s : string) : string :=
  match s with
  | EmptyString => EmptyString
  | String c s' => String (lower_char c) (lower s')
  end.

Fixpoint lstrip (s : string) : string :=
  match s with
  | EmptyString => EmptyString
  | String c s' => if isspace c then lstrip s' else s
  end.

Fixpoint rstrip (s : string) : string :=
  match s with
  | EmptyString => EmptyString
  | String c s' =>
      match rstrip s' with
      | EmptyString => if isspace c then EmptyString else String c EmptyString
      | r => String c r
      end
  end.

(** [s.strip()] *)
Definition strip (s : string) : string := rstrip (lstrip s).

(** [s.split()]: the maximal runs of characters that are not whitespace.
    [tok] is the run being read. *)
Fixpoint split_from (tok : string) (s : string) : list string :=
  match s with
  | EmptyString =>
      match tok with EmptyString => [] | _ => [tok] end
  | String c s' =>
      if isspace c then
        match tok with
        | EmptyString => split_from EmptyString s'
        | _ => tok :: split_from EmptyString s'
        end
      else split_from (String.append tok (String c EmptyString)) s'
  end.

Definition split (s : string) : list string := split_from EmptyString s.

(** [sub in s] *)
Fixpoint contains (sub s : string) : bool :=
  String.prefix sub s ||
  match s with
  | EmptyString => false
  | String _ s' => contains sub s'
  end.

(** [s.endswith(suffix)] *)
Fixpoint endswith (s suffix : string) : bool :=
  String.eqb s suffix ||
  match s with
  | EmptyString => false
  | String _ s' => endswith s' suffix
  end.

(** [s.endswith((a, b, ...))] *)
Definition endswith_any (s : string) (suffixes : list string) : bool :=
  existsb (endswith s) suffixes.

(** [s and s[0].islower()] *)
Definition starts_lower (s : string) : bool :=
  match s with
  | EmptyString => false
  | String c _ => islower c
  end.

(** Truth value of a string. *)
Definition truthy (s : string) : bool :=
  match s with
  | EmptyString => false
  | String _ _ => true
  end.

End PyStr.

(** ** JSON values *)

(** A value of the [answers] object.  The grader reads a value through
    [str(v)] only, so a number, list or object is kept as its [str] text. *)
Inductive pyvalue : Type :=
| PStr (s : string)
| PNone
| PBool (b : bool)
| POther (shown : string).

(** [str(v)] *)
Definition py_str (v : pyvalue) : string :=
  match v with
  | PStr s => s
  | PNone => "None"
  | PBool true => "True"
  | PBool false => "False"
  | POther shown => shown
  end.

(** A field of a stored document: a double of finite value [x], an
    integer, null, or a text. *)
Inductive docvalue : Type :=
| DNum (x : Q)
| DInt (n : Z)
| DNull
| DText (s : string).

Abbreviation document := (gmap string docvalue).

(** ** schemas.py: the records written to the store *)

Module Student.
Record t : Type := {
  name : string;
  age : Z;
  level : string;
  guardian_email : option string;
  created_at : option Z
}.
End Student.

Module ChatMessage.
Record t : Type := {
  student_id : option string;
  role : string;
  text : string;
  corrections : option (list string);
  created_at : option Z
}.
End ChatMessage.

Module ActivityResult.
Record t : Type := {
  student_id : string;
  lesson_id : string;
  activity_id : string;
  score : Q;
  details : option (gmap string pyvalue);
  created_at : option Z
}.
End ActivityResult.

Module PronunciationAttempt.
Record t : Type := {
  student_id : option string;
  target : string;
  transcript : string;
  similarity : option Q;
  created_at : option Z
}.
End PronunciationAttempt.

(** The body of [POST /students] before validation: [level] may be absent. *)
Record StudentBody : Type := {
  body_name : string;
  body_age : Z;
  body_level : option string;
  body_guardian_email : option string;
  body_created_at : option Z
}.

(** [Student(...)] on the request body: [age] is declared with
    [ge=10, le=15], [level] defaults to [A2].  The validation error is
    abridged to the name of the field it refuses. *)
Definition Student_validate (body : StudentBody) : result Student.t :=
  if ((10 <=? body_age body) && (body_age body <=? 15))%Z then
    Ok {| Student.name := body_name body;
          Student.age := body_age body;
          Student.level := default "A2" (body_level body);
          Student.guardian_email := body_guardian_email body;
          Student.created_at := body_created_at body |}
  else Raise (ValidationError "age").

(** [ChatMessage(student_id=.., role=.., text=.., corrections=..)] *)
Definition ChatMessage_new (student_id : option string) (role text : string)
    (corrections : list string) : ChatMessage.t :=
  {| ChatMessage.student_id := student_id;
     ChatMessage.role := role;
     ChatMessage.text := text;
     ChatMessage.corrections := Some corrections;
     ChatMessage.created_at := None |}.

(** [ActivityResult(.., score=.., details=..)]: [score] is declared with
    [ge=0, le=100].  [details] is the one-entry dict that holds the answers,
    kept here as the answers themselves. *)
Definition ActivityResult_new (student_id lesson_id activity_id : string)
    (score : Q) (details : gmap string pyvalue) : result ActivityResult.t :=
  if Qle_bool 0 score && Qle_bool score 100 then
    Ok {| ActivityResult.student_id := student_id;
          ActivityResult.lesson_id := lesson_id;
          ActivityResult.activity_id := activity_id;
          ActivityResult.score := score;
          ActivityResult.details := Some details;
          ActivityResult.created_at := None |}
  else Raise (ValidationError "score").

(** [PronunciationAttempt(.., similarity=..)] *)
Definition PronunciationAttempt_new (student_id : option string)
    (target transcript : string) (similarity : Q) : PronunciationAttempt.t :=
  {| PronunciationAttempt.student_id := student_id;
     PronunciationAttempt.target := target;
     PronunciationAttempt.transcript := transcript;
     PronunciationAttempt.similarity := Some similarity;
     PronunciationAttempt.created_at := None |}.

(** A validated record of any of the four schemas. *)
Inductive model : Type :=
| MStudent (s : Student.t)
| MChatMessage (c : ChatMessage.t)
| MActivityResult (a : ActivityResult.t)
| MPronunciationAttempt (p : PronunciationAttempt.t).

(** ** The persistence gateway and the world a handler runs in *)

(** What main.py imports from database.py.  Any call may raise, and may
    change the store. *)
Record Gateway (store : Type) : Type := {
  (** [create_document(collection, record)]: the new identifier *)
  gw_create_document : string -> model -> store -> result string * store;
  (** [db[collection].count_documents({"student_id": sid})] *)
  gw_count_documents : string -> string -> store -> result nat * store;
  (** [db[collection].find({"student_id": sid})], read to its end *)
  gw_find : string -> string -> store -> result (list document) * store
}.
Arguments gw_create_document {store} _ _ _ _.
Arguments gw_count_documents {store} _ _ _ _.
Arguments gw_find {store} _ _ _ _.

Inductive call : Type :=
| CallCreate (collection : string) (m : model)
| CallCount (collection student_id : string)
| CallFind (collection student_id : string).

Record world (store : Type) : Type := World {
  w_db : store;
  w_calls : list call
}.
Arguments World {store} _ _.
Arguments w_db {store} _.
Arguments w_calls {store} _.

(** A handler: a function of the world that returns a value and the world
    it leaves. *)
Definition M (store A : Type) : Type := world store -> A * world store.

Definition ret {store A : Type} (a : A) : M store A := fun w => (a, w).

Definition bind {store A B : Type} (m : M store A) (k : A -> M store B) : M store B :=
  fun w => let '(a, w') := m w in k a w'.

Notation "'let*' x ':=' m 'in' k" := (bind m (fun x => k))
  (at level 10, x name, m at level 200, k at level 200, only parsing).

(** What the client receives. *)
Inductive http (A : Type) : Type :=
| Http200 (body : A)
| HttpError (status : Z) (detail : string).
Arguments Http200 {A} body.
Arguments HttpError {A} status detail.

(** ** main.py: request and response models *)

Module TutorRequest.
Record t : Type := { student_id : option string; message : string }.
End TutorRequest.

Module TutorResponse.
Record t : Type := { reply : string; tips : list string; grammar_notes : list string }.
End TutorResponse.

Module PronunciationRequest.
Record t : Type := { student_id : option string; target : string; transcript : string }.
End PronunciationRequest.

Module PronunciationFeedback.
Record t : Type := { similarity : Q; advice : list string }.
End PronunciationFeedback.

Module ActivitySubmission.
Record t : Type := {
  student_id : string;
  lesson_id : string;
  activity_id : string;
  answers : gmap string pyvalue
}.
End ActivitySubmission.

Module ActivityFeedback.
Record t : Type := { score : Q; feedback : list string }.
End ActivityFeedback.

Module Progress.
Record t : Type := {
  student_id : string;
  vocabulary_growth : nat;
  messages_exchanged : nat;
  avg_pronunciation_similarity : Q
}.
End Progress.

(** ** main.py: the heuristics of the handlers *)

Import Binary64.

(** [l.append(x)] *)
Definition append {A : Type} (l : list A) (x : A) : list A := (l ++ [x])%list.

(** *** tutor_chat *)

Definition bad_phrases : list string := ["i is"; "she go"; "he go"; "they was"].

Definition tip_agreement : string :=
  "Subject-verb agreement: use 'I am', 'she goes', 'they were'.".
Definition tip_capital : string := "Start sentences with a capital letter.".
Definition tip_punctuation : string := "End sentences with a period or question mark.".

Definition has_bad_phrase (user_text : string) : bool :=
  existsb (fun word => PyStr.contains word (PyStr.lower user_text)) bad_phrases.

Definition lacks_terminal_punctuation (user_text : string) : bool :=
  negb (PyStr.endswith_any user_text ["."; "!"; "?"]).

(** The three [if] statements that fill [grammar], in order. *)
Definition tutor_chat_grammar (user_text : string) : list string :=
  let grammar := [] in
  let grammar :=
    if has_bad_phrase user_text then append grammar tip_agreement else grammar in
  let grammar :=
    if PyStr.starts_lower user_text then append grammar tip_capital else grammar in
  let grammar :=
    if lacks_terminal_punctuation user_text then append grammar tip_punctuation
    else grammar in
  grammar.

Definition reply_favorite : string :=
  "Cool! Tell me more about your favorites. Why do you like them?".
Definition reply_school : string :=
  "School can be fun and challenging. What's your best subject and why?".
Definition reply_generic : string :=
  "Thanks for sharing! Can you add 1-2 more details in another sentence?".

Definition tutor_chat_reply (user_text : string) : string :=
  if PyStr.contains "favorite" (PyStr.lower user_text) then reply_favorite
  else if PyStr.contains "school" (PyStr.lower user_text) then reply_school
  else reply_generic.

(** *** pronunciation_feedback *)

(** [set(s.lower().split())] *)
Definition token_set (s : string) : gset string :=
  list_to_set (PyStr.split (PyStr.lower s)).

(** The value of [sim]. *)
Definition pronunciation_sim (target transcript : string) : result Q :=
  let target_tokens := token_set target in
  let said_tokens := token_set transcript in
  if decide (target_tokens = ∅) then Ok 0%Q
  else int_truediv (size (target_tokens ∩ said_tokens))
                   (size (target_tokens ∪ said_tokens)).

Definition advice_slow : string := "Slow down and speak each word clearly.".
Definition advice_endings : string := "Pay attention to ending sounds like -s, -ed.".
Definition advice_great : string := "Great job! Try adding natural intonation.".

(** The literal [0.6]. *)
Definition sim_threshold : Q := literal 6 1.

Definition pronunciation_advice (sim : Q) : list string :=
  let advice := [] in
  if Qlt_le_dec sim sim_threshold then append (append advice advice_slow) advice_endings
  else append advice advice_great.

(** *** submit_activity *)

(** [payload.answers.values()] *)
Definition answer_values (answers : gmap string pyvalue) : list pyvalue :=
  (map_to_list answers).*2.

(** [str(v).strip()] as a condition *)
Definition answered (v : pyvalue) : bool := PyStr.truthy (PyStr.strip (py_str v)).

(** [sum(1 for v in payload.answers.values() if str(v).strip())] *)
Definition activity_non_empty (answers : gmap string pyvalue) : nat :=
  sum_list (map (fun _ => 1) (List.filter answered (answer_values answers))).

(** [max(len(payload.answers), 1)] *)
Definition activity_total (answers : gmap string pyvalue) : nat :=
  Nat.max (size answers) 1.

(** [(non_empty / total) * 100] *)
Definition activity_score (answers : gmap string pyvalue) : result Q :=
  match int_truediv (activity_non_empty answers) (activity_total answers) with
  | Ok ratio => Ok (float_mul ratio 100)
  | Raise e => Raise e
  end.

Definition feedback_review : string := "Let's review key vocabulary and try again.".
Definition feedback_nice : string := "Nice work! A few small mistakes to fix.".
Definition feedback_excellent : string := "Excellent! You're mastering this topic.".

Definition activity_feedback (score : Q) : list string :=
  let feedback := [] in
  if Qlt_le_dec score 60 then append feedback feedback_review
  else if Qlt_le_dec score 85 then append feedback feedback_nice
  else append feedback feedback_excellent.

(** *** get_progress *)

(** A float as [+] and [/] produce it: finite, an infinity, or NaN. *)
Inductive pyfloat : Type :=
| Finite (x : Q)
| Infinity (negative : bool)
| NaN.

(** A number: Python keeps an int apart from a float. *)
Inductive pynumber : Type :=
| PInt (n : Z)
| PFloat (x : pyfloat).

(** A magnitude from [2^1024] on is out of the range of binary64. *)
Definition out_of_range (x : Q) : bool := Qle_bool (inject_Z (2 ^ 1024)) (Qabs x).

(** The float of an exact result: the nearest binary64 value, and an
    infinity when that value is out of range. *)
Definition to_float (x : Q) : pyfloat :=
  let y := RN x in
  if out_of_range y then Infinity (Qnum y <? 0)%Z else Finite y.

(** [float(n)]: correctly rounded; it raises when out of range. *)
Definition int_to_float (n : Z) : result Q :=
  let y := RN (inject_Z n) in
  if out_of_range y then Raise (OverflowError "int too large to convert to float")
  else Ok y.

(** [x + y] on floats *)
Definition pyfloat_add (a b : pyfloat) : pyfloat :=
  match a, b with
  | NaN, _ | _, NaN => NaN
  | Finite x, Finite y => to_float (x + y)
  | Finite _, Infinity s => Infinity s
  | Infinity s, Finite _ => Infinity s
  | Infinity s, Infinity t => if Bool.eqb s t then Infinity s else NaN
  end.

(** [a + b] on numbers: exact on two ints; an int added to a float is
    converted first. *)
Definition py_add (a b : pynumber) : result pynumber :=
  match a, b with
  | PInt m, PInt n => Ok (PInt (m + n))
  | PInt m, PFloat y =>
      match int_to_float m with
      | Ok x => Ok (PFloat (pyfloat_add (Finite x) y))
      | Raise e => Raise e
      end
  | PFloat x, PInt n =>
      match int_to_float n with
      | Ok y => Ok (PFloat (pyfloat_add x (Finite y)))
      | Raise e => Raise e
      end
  | PFloat x, PFloat y => Ok (PFloat (pyfloat_add x y))
  end.

(** [x / d] for a float [x] and a finite positive [d] *)
Definition pyfloat_div (x : pyfloat) (d : Q) : pyfloat :=
  match x with
  | Finite a => to_float (a / d)
  | Infinity s => Infinity s
  | NaN => NaN
  end.

(** [total / n] for a length [n]: the true division of two ints is
    correctly rounded and raises when the quotient is out of range; a
    float is divided by [float(n)]. *)
Definition py_truediv (total : pynumber) (n : nat) : result pyfloat :=
  match n with
  | O => Raise ZeroDivisionError
  | S _ =>
      match total with
      | PInt m =>
          let y := RN (Qmake m (Pos.of_nat n)) in
          if out_of_range y
          then Raise (OverflowError "integer division result too large for a float")
          else Ok (Finite y)
      | PFloat x =>
          match int_to_float (Z.of_nat n) with
          | Ok d => Ok (pyfloat_div x d)
          | Raise e => Raise e
          end
      end
  end.

(** [round(x, ndigits)]: an infinity and NaN are returned as they are. *)
Definition pyfloat_round (x : pyfloat) (ndigits : nat) : pyfloat :=
  match x with
  | Finite a => Finite (py_round a ndigits)
  | Infinity s => Infinity s
  | NaN => NaN
  end.

(** [doc.get("similarity", 0)] *)
Definition doc_similarity (doc : document) : docvalue :=
  default (DInt 0) (doc !! "similarity").

(** The numbers [sum] adds up; a value that is no number raises. *)
Fixpoint numbers (vs : list docvalue) : result (list pynumber) :=
  match vs with
  | [] => Ok []
  | DNum x :: vs' =>
      match numbers vs' with
      | Ok xs => Ok (PFloat (Finite x) :: xs)
      | Raise e => Raise e
      end
  | DInt n :: vs' =>
      match numbers vs' with
      | Ok xs => Ok (PInt n :: xs)
      | Raise e => Raise e
      end
  | _ :: _ => Raise TypeError
  end.

(** ** main.py: the handlers *)

Section Handlers.

Context {store : Type} (gw : Gateway store).

(** [sum] over numbers.  CPython adds from left to right, floats with a
    correction term since version 3.12; the handlers are stated for any
    such function. *)
Variable py_sum : list pynumber -> result pynumber.

Definition create_document (collection : string) (m : model) : M store (result string) :=
  fun w =>
    let '(r, s) := gw_create_document gw collection m (w_db w) in
    (r, World s (append (w_calls w) (CallCreate collection m))).

Definition count_documents (collection student_id : string) : M store (result nat) :=
  fun w =>
    let '(r, s) := gw_count_documents gw collection student_id (w_db w) in
    (r, World s (append (w_calls w) (CallCount collection student_id))).

Definition find (collection student_id : string) : M store (result (list document)) :=
  fun w =>
    let '(r, s) := gw_find gw collection student_id (w_db w) in
    (r, World s (append (w_calls w) (CallFind collection student_id))).

Definition create_student (student : Student.t) : M store (http string) :=
  let* r := create_document "student" (MStudent student) in
  match r with
  | Ok _id => ret (Http200 _id)
  | Raise e => ret (HttpError 500 (exn_str e))
  end.

(** [POST /students]: the framework builds the [Student] from the request
    body and answers 422 itself when that fails; the handler runs only on a
    validated record. *)
Definition post_students (body : StudentBody) : M store (http string) :=
  match Student_validate body with
  | Ok student => create_student student
  | Raise e => ret (HttpError 422 (exn_str e))
  end.

Definition tutor_chat (payload : TutorRequest.t) : M store (http TutorResponse.t) :=
  let user_text := PyStr.strip (TutorRequest.message payload) in
  let tips : list string := [] in
  let grammar := tutor_chat_grammar user_text in
  let reply := tutor_chat_reply user_text in
  let* stored := (let* r := create_document "chatmessage"
               (MChatMessage (ChatMessage_new (TutorRequest.student_id payload)
                                "user" user_text grammar)) in
        match r with
        | Ok _ =>
            create_document "chatmessage"
              (MChatMessage (ChatMessage_new (TutorRequest.student_id payload)
                               "tutor" reply tips))
        | Raise e => ret (Raise e)
        end) in
  ret (Http200 {| TutorResponse.reply := reply;
                  TutorResponse.tips := tips;
                  TutorResponse.grammar_notes := grammar |}).

Definition pronunciation_feedback (payload : PronunciationRequest.t)
  : M store (http PronunciationFeedback.t) :=
  match pronunciation_sim (PronunciationRequest.target payload)
                          (PronunciationRequest.transcript payload) with
  | Raise _ => ret (HttpError 500 "Internal Server Error")
  | Ok sim =>
      let advice := pronunciation_advice sim in
      let* stored := create_document "pronunciationattempt"
             (MPronunciationAttempt
                (PronunciationAttempt_new (PronunciationRequest.student_id payload)
                   (PronunciationRequest.target payload)
                   (PronunciationRequest.transcript payload) sim)) in
      ret (Http200 {| PronunciationFeedback.similarity := py_round sim 2;
                      PronunciationFeedback.advice := advice |})
  end.

(** The record [submit_activity] builds for the store, or the validation
    error its construction raises. *)
Definition submit_activity_record (payload : ActivitySubmission.t) (score : Q)
  : result ActivityResult.t :=
  ActivityResult_new (ActivitySubmission.student_id payload)
    (ActivitySubmission.lesson_id payload)
    (ActivitySubmission.activity_id payload)
    score (ActivitySubmission.answers payload).

Definition submit_activity (payload : ActivitySubmission.t)
  : M store (http ActivityFeedback.t) :=
  match activity_score (ActivitySubmission.answers payload) with
  | Raise _ => ret (HttpError 500 "Internal Server Error")
  | Ok score =>
      let feedback := activity_feedback score in
      let* stored := match submit_activity_record payload score with
           | Ok record => create_document "activityresult" (MActivityResult record)
           | Raise e => ret (Raise e)
           end in
      ret (Http200 {| ActivityFeedback.score := py_round score 1;
                      ActivityFeedback.feedback := feedback |})
  end.

(** [sum(sims) / len(sims)] *)
Definition mean (sims : list docvalue) : result pyfloat :=
  match numbers sims with
  | Raise e => Raise e
  | Ok xs =>
      match py_sum xs with
      | Raise e => Raise e
      | Ok total => py_truediv total (length sims)
      end
  end.

(** The inner [try] of [get_progress]: the value [avg_pron] holds after it.
    Whatever the read or the arithmetic raises is passed over, and
    [avg_pron] keeps its initial [0.0]. *)
Definition average_similarity (student_id : string) : M store pyfloat :=
  let* r := find "pronunciationattempt" student_id in
  ret (match r with
       | Raise _ => Finite 0
       | Ok cursor =>
           let sims := map doc_similarity cursor in
           match sims with
           | [] => Finite 0
           | _ :: _ =>
               match mean sims with
               | Ok avg => avg
               | Raise _ => Finite 0
               end
           end
       end).

Definition get_progress (student_id : string) : M store (http Progress.t) :=
  let* r1 := count_documents "activityresult" student_id in
  match r1 with
  | Raise e => ret (HttpError 500 (exn_str e))
  | Ok vocab_growth =>
      let* r2 := count_documents "chatmessage" student_id in
      match r2 with
      | Raise e => ret (HttpError 500 (exn_str e))
      | Ok chats =>
          let* r3 := count_documents "pronunciationattempt" student_id in
          match r3 with
          | Raise e => ret (HttpError 500 (exn_str e))
          | Ok pronunciation =>
              let* avg_pron := average_similarity student_id in
              match pyfloat_round avg_pron 2 with
              | Finite avg =>
                  ret (Http200
                         {| Progress.student_id := student_id;
                            Progress.vocabulary_growth := vocab_growth;
                            Progress.messages_exchanged := chats;
                            Progress.avg_pronunciation_similarity := avg |})
              | Infinity _ | NaN =>
                  (* the handler returns, and the framework cannot write an
                     infinity or NaN as JSON *)
                  ret (HttpError 500 "Internal Server Error")
              end
          end
      end
  end.

End Handlers.

(** ** Gateways to run the handlers on *)

(** A gateway that answers every call with a fixed outcome and keeps no
    state. *)
Definition scripted_gateway (created : result string)
    (counted : string -> result nat) (found : result (list document)) : Gateway unit :=
  {| gw_create_document := fun _ _ s => (created, s);
     gw_count_documents := fun collection _ s => (counted collection, s);
     gw_find := fun _ _ s => (found, s) |}.

(** [sum] as CPython computes it before version 3.12: [+] from left to
    right, from the int 0. *)
Fixpoint sum_from (acc : pynumber) (xs : list pynumber) : result pynumber :=
  match xs with
  | [] => Ok acc
  | x :: xs' =>
      match py_add acc x with
      | Ok acc' => sum_from acc' xs'
      | Raise e => Raise e
      end
  end.

Definition left_to_right_sum (xs : list pynumber) : result pynumber :=
  sum_from (PInt 0) xs.

Definition fresh_world : world unit := World tt [].

(** ** The formulas of the specification, in its words *)

(** A text of whitespace only. *)
Fixpoint blank (s : string) : bool :=
  match s with
  | EmptyString => true
  | String c s' => PyStr.isspace c && blank s'
  end.

(** A word: a text that is not empty and holds no whitespace. *)
Fixpoint spaceless (s : string) : bool :=
  match s with
  | EmptyString => true
  | String c s' => negb (PyStr.isspace c) && spaceless s'
  end.

Definition word (s : string) : bool :=
  match s with
  | EmptyString => false
  | String _ _ => spaceless s
  end.

(** Whitespace tokenization: [tokenized s toks] when [s] is the words
    [toks] in this order, with whitespace or nothing before the first and
    after the last, and at least one whitespace character between two of
    them. *)
Inductive tokenized : string -> list string -> Prop :=
| tokenized_blank (pad : string) :
    blank pad = true -> tokenized pad []
| tokenized_last (pad tok : string) :
    blank pad = true -> word tok = true -> tokenized (pad ++ tok) [tok]
| tokenized_more (pad tok : string) (c : ascii) (rest : string) (toks : list string) :
    blank pad = true -> word tok = true -> PyStr.isspace c = true ->
    tokenized rest toks ->
    tokenized (pad ++ tok ++ String c rest) (tok :: toks).

(** Jaccard similarity of two lists of tokens taken as sets: the number of
    distinct tokens in both over the number of distinct tokens in either,
    and 0 when the first list is empty.  The exact quotient. *)
Definition jaccard (target_tokens said_tokens : list string) : Q :=
  let a := remove_dups target_tokens in
  let b := remove_dups said_tokens in
  match a with
  | [] => 0%Q
  | _ :: _ =>
      Qmake (Z.of_nat (length (list_intersection a b)))
            (Pos.of_nat (length (list_union a b)))
  end.

(** Rounding to two decimal places: [k / 100] is the decimal nearest to
    [x], and the even one when two are as near. *)
Definition nearest_hundredth (k : Z) (x : Q) : Prop :=
  (Qabs (inject_Z k / 100 - x) <= 1 # 200)%Q
  /\ ((Qabs (inject_Z k / 100 - x) == 1 # 200)%Q -> Z.even k = true).

(** The token set of a text, as the list of its distinct case-folded
    whitespace tokens. *)
Definition spec_tokens (s : string) : list string :=
  remove_dups (PyStr.split (PyStr.lower s)).

(** Jaccard similarity: the size of the intersection over the size of the
    union of the two token sets, and 0 when the target has no token.  The
    exact quotient, before any rounding. *)
Definition spec_jaccard (target transcript : string) : Q :=
  let a := spec_tokens target in
  let b := spec_tokens transcript in
  match a with
  | [] => 0%Q
  | _ :: _ =>
      Qmake (Z.of_nat (length (list_intersection a b)))
            (Pos.of_nat (length (list_union a b)))
  end.

(** The number of answers whose string form is not empty once trimmed:
    trimming leaves nothing exactly of a text of whitespace only. *)
Definition spec_answered_count (answers : gmap string pyvalue) : nat :=
  length (List.filter (fun kv => negb (blank (py_str (snd kv)))) (map_to_list answers)).

(** That count over the number of answers, the denominator at least 1.
    The exact quotient, before any rounding. *)
Definition spec_completeness (answers : gmap string pyvalue) : Q :=
  Qmake (Z.of_nat (spec_answered_count answers))
        (Pos.of_nat (Nat.max (size answers) 1)).

(** ** Inputs the specification names *)

(** The answers [q1: blue, q2: (empty), q3: cat]. *)
Definition example_answers : gmap string pyvalue :=
  list_to_map [("q1", PStr "blue"); ("q2", PStr ""); ("q3", PStr "cat")].

(** The float [66.7]. *)
Definition example_score : Q := literal 667 1.

(** A store whose counts succeed and whose [find] raises. *)
Definition find_failure : exn :=
  Exception "ServerSelectionTimeoutError" "connection refused".

Definition failing_find_gateway : Gateway unit :=
  scripted_gateway (Ok "id1") (fun _ => Ok 2) (Raise find_failure).

(** A store whose count of chat messages raises. *)
Definition count_failure : exn := Exception "OperationFailure" "not authorized".

Definition failing_count_gateway : Gateway unit :=
  scripted_gateway (Ok "id1")
    (fun collection => if String.eqb collection "chatmessage" then Raise count_failure
                       else Ok 2)
    (Ok []).

(** A store that accepts every call. *)
Definition working_gateway : Gateway unit :=
  scripted_gateway (Ok "id1") (fun _ => Ok 0) (Ok []).

Definition student_body (age : Z) : StudentBody :=
  {| body_name := "Ana";
     body_age := age;
     body_level := None;
     body_guardian_email := None;
     body_created_at := None |}.

(** The float just below the float [0.6]. *)
Definition below_sim_threshold : Q := 2702159776422297 # 4503599627370496.

(** ** main.py: the handlers outside the tutoring heuristics *)

(** *** list_students *)

(** [str(v)] of a stored value; [number_str] is how a float prints, and an
    int prints in decimal.  An object identifier is kept as the text it
    prints as. *)
Definition docvalue_str (number_str : Q -> string) (v : docvalue) : string :=
  match v with
  | DNum x => number_str x
  | DInt n => pretty n
  | DNull => "None"
  | DText s => s
  end.

(** [str(d.get("_id"))] *)
Definition doc_id_str (number_str : Q -> string) (d : document) : string :=
  match d !! "_id" with
  | Some v => docvalue_str number_str v
  | None => "None"
  end.

(** The body of the loop: [d["id"] = str(d.get("_id"))], then
    [d.pop("_id", None)]. *)
Definition expose_id (number_str : Q -> string) (d : document) : document :=
  delete "_id" (<["id" := DText (doc_id_str number_str d)]> d).

Section Listing.

Context {store : Type}.

(** [get_documents(collection, limit=limit)] of database.py: it may raise,
    and may change the store. *)
Variable get_documents : string -> option Z -> store -> result (list document) * store.

Variable number_str : Q -> string.

(** The documents are distinct objects, so the loop changes each of them
    once. *)
Definition list_students (limit : option Z) (s : store)
  : http (list document) * store :=
  match get_documents "student" limit s with
  | (Ok docs, s') => (Http200 (map (expose_id number_str) docs), s')
  | (Raise e, s') => (HttpError 500 (exn_str e), s')
  end.

(** [GET /students]: the query parameter [limit] is 50 when absent. *)
Definition get_students (query_limit : option Z) (s : store)
  : http (list document) * store :=
  list_students (Some (default 50%Z query_limit)) s.

End Listing.

(** *** test_database *)

(** The process-wide [db] of database.py, when it is not [None]. *)
Record DbHandle : Type := {
  (** [db.name]: [Ok None] when the handle has no such attribute, [Raise]
      when reading it raises something other than [AttributeError] *)
  db_name : result (option string);
  (** [db.list_collection_names()] *)
  db_list_collection_names : result (list string)
}.

Module Diagnostic.
Record t : Type := {
  backend : string;
  database : string;
  database_url : option string;
  database_name : option string;
  connection_status : string;
  collections : list string
}.
End Diagnostic.

(** [response[key] = value] for each key. *)
Definition set_database (r : Diagnostic.t) (v : string) : Diagnostic.t :=
  {| Diagnostic.backend := Diagnostic.backend r;
     Diagnostic.database := v;
     Diagnostic.database_url := Diagnostic.database_url r;
     Diagnostic.database_name := Diagnostic.database_name r;
     Diagnostic.connection_status := Diagnostic.connection_status r;
     Diagnostic.collections := Diagnostic.collections r |}.

Definition set_database_url (r : Diagnostic.t) (v : string) : Diagnostic.t :=
  {| Diagnostic.backend := Diagnostic.backend r;
     Diagnostic.database := Diagnostic.database r;
     Diagnostic.database_url := Some v;
     Diagnostic.database_name := Diagnostic.database_name r;
     Diagnostic.connection_status := Diagnostic.connection_status r;
     Diagnostic.collections := Diagnostic.collections r |}.

Definition set_database_name (r : Diagnostic.t) (v : string) : Diagnostic.t :=
  {| Diagnostic.backend := Diagnostic.backend r;
     Diagnostic.database := Diagnostic.database r;
     Diagnostic.database_url := Diagnostic.database_url r;
     Diagnostic.database_name := Some v;
     Diagnostic.connection_status := Diagnostic.connection_status r;
     Diagnostic.collections := Diagnostic.collections r |}.

Definition set_connection_status (r : Diagnostic.t) (v : string) : Diagnostic.t :=
  {| Diagnostic.backend := Diagnostic.backend r;
     Diagnostic.database := Diagnostic.database r;
     Diagnostic.database_url := Diagnostic.database_url r;
     Diagnostic.database_name := Diagnostic.database_name r;
     Diagnostic.connection_status := v;
     Diagnostic.collections := Diagnostic.collections r |}.

Definition set_collections (r : Diagnostic.t) (v : list string) : Diagnostic.t :=
  {| Diagnostic.backend := Diagnostic.backend r;
     Diagnostic.database := Diagnostic.database r;
     Diagnostic.database_url := Diagnostic.database_url r;
     Diagnostic.database_name := Diagnostic.database_name r;
     Diagnostic.connection_status := Diagnostic.connection_status r;
     Diagnostic.collections := v |}.

(** The truth value of [os.getenv(name)]: the variable is set and not
    empty. *)
Definition getenv_set (env : gmap string string) (name : string) : bool :=
  match env !! name with
  | Some v => PyStr.truthy v
  | None => false
  end.

(** The marks of the diagnostic, each with the symbol of the source as its
    UTF-8 bytes. *)
Definition mark_set : string := "✅ Set".
Definition mark_not_set : string := "❌ Not Set".
Definition mark_running : string := "✅ Running".
Definition mark_not_available : string := "❌ Not Available".
Definition mark_available : string := "✅ Available".
Definition mark_working : string := "✅ Connected & Working".
Definition mark_connected_error : string := "⚠️ Connected but error: ".
Definition mark_not_initialized : string := "⚠️ Available but not initialized".
Definition mark_error : string := "❌ Error: ".

Definition set_or_not (b : bool) : string := if b then mark_set else mark_not_set.

(** [s[:n]] *)
Fixpoint str_head (n : nat) (s : string) : string :=
  match n, s with
  | S n', String c s' => String c (str_head n' s')
  | _, _ => EmptyString
  end.

(** The body of the outer [try]. *)
Definition probe_database (db : option DbHandle) (env : gmap string string)
    (response : Diagnostic.t) : Diagnostic.t :=
  match db with
  | Some handle =>
      let response := set_database response mark_available in
      let response :=
        set_database_url response (set_or_not (getenv_set env "DATABASE_URL")) in
      match db_name handle with
      | Raise e =>
          set_database response (String.append mark_error (str_head 80 (exn_str e)))
      | Ok name =>
          let response := set_database_name response (default "Unknown" name) in
          let response := set_connection_status response "Connected" in
          match db_list_collection_names handle with
          | Ok collections =>
              let response := set_collections response (take 10 collections) in
              set_database response mark_working
          | Raise e =>
              set_database response
                (String.append mark_connected_error (str_head 80 (exn_str e)))
          end
      end
  | None => set_database response mark_not_initialized
  end.

Definition test_database (db : option DbHandle) (env : gmap string string)
  : Diagnostic.t :=
  let response :=
    {| Diagnostic.backend := mark_running;
       Diagnostic.database := mark_not_available;
       Diagnostic.database_url := None;
       Diagnostic.database_name := None;
       Diagnostic.connection_status := "Not Connected";
       Diagnostic.collections := [] |} in
  let response := probe_database db env response in
  let response :=
    set_database_url response (set_or_not (getenv_set env "DATABASE_URL")) in
  let response :=
    set_database_name response (set_or_not (getenv_set env "DATABASE_NAME")) in
  response.

(** ** Further inputs and constants *)

(** The floats just below the floats [0.85] and [1.0]. *)
Definition below_085 : Q := 3828059683264921 # 4503599627370496.
Definition below_one : Q := 9007199254740991 # 9007199254740992.

(** The number a stored similarity stands for in the sum, the int 0 when
    the attempt has none. *)
Definition similarity_number (d : document) (n : pynumber) : Prop :=
  match d !! "similarity" with
  | Some (DNum x) => n = PFloat (Finite x)
  | Some (DInt i) => n = PInt i
  | Some _ => False
  | None => n = PInt 0
  end.

(** A store with the attempts [docs], every count 2. *)
Definition attempts_gateway (docs : list document) : Gateway unit :=
  scripted_gateway (Ok "id1") (fun _ => Ok 2) (Ok docs).

(** A store whose first write raises. *)
Definition write_failure : exn := Exception "AutoReconnect" "connection closed".

Definition failing_write_gateway : Gateway unit :=
  scripted_gateway (Raise write_failure) (fun _ => Ok 0) (Ok []).

(** * Properties *)

(** ** Rounding to binary64 is monotone *)

Section RoundingFacts.

Local Open Scope Z_scope.

Lemma div_cross_mono (n1 d1 n2 d2 : Z) :
  0 < d1 -> 0 < d2 -> n1 * d2 <= n2 * d1 -> n1 / d1 <= n2 / d2.
Proof.
  intros Hd1 Hd2 Hx.
  apply Z.div_le_lower_bound; [lia|].
  pose proof (Z.mul_div_le n1 d1 Hd1) as Hq.
  nia.
Qed.

Lemma div_half_even_bounds (n d : Z) :
  n / d <= div_half_even n d <= n / d + 1.
Proof.
  unfold div_half_even.
  destruct (2 * (n mod d) ?= d); [destruct (Z.even (n / d))| |]; lia.
Qed.

Lemma half_cross (r1 d1 r2 d2 : Z) :
  0 < d1 -> 0 < d2 -> r1 * d2 <= r2 * d1 ->
  (d1 <= 2 * r1 -> d2 <= 2 * r2) /\ (d1 < 2 * r1 -> d2 < 2 * r2).
Proof.
  intros Hd1 Hd2 Hr. split; intros H.
  - apply Z.nlt_ge. intros C.
    assert (2 * r2 * d1 < d2 * d1) by (apply Z.mul_lt_mono_pos_r; lia).
    assert (d1 * d2 <= 2 * r1 * d2) by (apply Z.mul_le_mono_nonneg_r; lia).
    lia.
  - apply Z.nle_gt. intros C.
    assert (2 * r2 * d1 <= d2 * d1) by (apply Z.mul_le_mono_nonneg_r; lia).
    assert (d1 * d2 < 2 * r1 * d2) by (apply Z.mul_lt_mono_pos_r; lia).
    lia.
Qed.

Lemma div_half_even_mono (n1 d1 n2 d2 : Z) :
  0 < d1 -> 0 < d2 -> n1 * d2 <= n2 * d1 ->
  div_half_even n1 d1 <= div_half_even n2 d2.
Proof.
  intros Hd1 Hd2 Hx.
  pose proof (div_cross_mono n1 d1 n2 d2 Hd1 Hd2 Hx) as Hq.
  pose proof (div_half_even_bounds n1 d1) as B1.
  pose proof (div_half_even_bounds n2 d2) as B2.
  destruct (Z.eq_dec (n1 / d1) (n2 / d2)) as [E|NE]; [|lia].
  clear B1 B2 Hq.
  pose proof (Z.div_mod n1 d1 ltac:(lia)) as E1.
  pose proof (Z.div_mod n2 d2 ltac:(lia)) as E2.
  pose proof (Z.mod_pos_bound n1 d1 Hd1) as R1.
  pose proof (Z.mod_pos_bound n2 d2 Hd2) as R2.
  unfold div_half_even. rewrite <- E.
  set (q := n1 / d1) in *. set (r1 := n1 mod d1) in *. set (r2 := n2 mod d2) in *.
  assert (Hr : r1 * d2 <= r2 * d1) by nia.
  destruct (half_cross r1 d1 r2 d2 Hd1 Hd2 Hr) as [Hge Hgt].
  destruct (Z.compare_spec (2 * r1) d1) as [C1|C1|C1];
    destruct (Z.compare_spec (2 * r2) d2) as [C2|C2|C2];
    destruct (Z.even q); lia.
Qed.

Lemma round_units_zero (d : Z) : 0 < d -> round_units 0 d = 0.
Proof.
  intros Hd. unfold round_units.
  rewrite Z.div_0_l by lia.
  change (Z.max (Z.log2 0 - 52) 0) with 0.
  rewrite Z.pow_0_r, !Z.mul_1_r.
  unfold div_half_even. rewrite Z.div_0_l, Zmod_0_l by lia.
  destruct (Z.compare_spec (2 * 0) d); lia.
Qed.

Lemma round_units_mono (n1 d1 n2 d2 : Z) :
  0 <= n1 -> 0 < d1 -> 0 < d2 -> n1 * d2 <= n2 * d1 ->
  round_units n1 d1 <= round_units n2 d2.
Proof.
  intros Hn1 Hd1 Hd2 Hx.
  pose proof (div_cross_mono n1 d1 n2 d2 Hd1 Hd2 Hx) as Hf.
  assert (Hf1 : 0 <= n1 / d1) by (apply Z.div_pos; lia).
  unfold round_units.
  set (f1 := n1 / d1) in *. set (f2 := n2 / d2) in *.
  pose proof (Z.log2_le_mono f1 f2 Hf) as Hl.
  set (s1 := Z.max (Z.log2 f1 - 52) 0). set (s2 := Z.max (Z.log2 f2 - 52) 0).
  assert (Hs1 : 0 <= s1) by lia. assert (Hs12 : s1 <= s2) by lia.
  assert (P1 : 0 < 2 ^ s1) by (apply Z.pow_pos_nonneg; lia).
  assert (P2 : 0 < 2 ^ s2) by (apply Z.pow_pos_nonneg; lia).
  destruct (Z.eq_dec s1 s2) as [E|NE].
  - rewrite <- E. apply Z.mul_le_mono_nonneg_r; [lia|].
    apply div_half_even_mono; nia.
  - assert (Hs2 : s2 = Z.log2 f2 - 52 /\ 0 < s2) by lia. destruct Hs2 as [Hs2 Hs2p].
    (* the value on the left is below 2^(53+s1) *)
    assert (U : div_half_even n1 (d1 * 2 ^ s1) <= 2 ^ 53).
    { pose proof (div_half_even_bounds n1 (d1 * 2 ^ s1)) as B.
      rewrite <- Z.div_div in B by lia. fold f1 in B.
      assert (f1 < 2 ^ (s1 + 53)).
      { destruct (Z.eq_dec f1 0) as [Z0|NZ].
        - rewrite Z0. apply Z.pow_pos_nonneg; lia.
        - pose proof (Z.log2_spec f1 ltac:(lia)) as [_ Hlt].
          eapply Z.lt_le_trans; [exact Hlt|].
          apply Z.pow_le_mono_r; lia. }
      assert (f1 / 2 ^ s1 < 2 ^ 53).
      { apply Z.div_lt_upper_bound; [lia|]. rewrite <- Z.pow_add_r by lia. assumption. }
      lia. }
    (* the value on the right is at least 2^(52+s2) *)
    assert (L : 2 ^ 52 <= div_half_even n2 (d2 * 2 ^ s2)).
    { pose proof (div_half_even_bounds n2 (d2 * 2 ^ s2)) as B.
      rewrite <- Z.div_div in B by lia. fold f2 in B.
      assert (0 < f2).
      { destruct (Z.le_gt_cases f2 0) as [Hle|]; [|assumption].
        rewrite (Z.log2_nonpos f2 Hle) in Hs2. lia. }
      pose proof (Z.log2_spec f2 ltac:(lia)) as [Hge _].
      assert (2 ^ 52 <= f2 / 2 ^ s2).
      { apply Z.div_le_lower_bound; [lia|]. rewrite <- Z.pow_add_r by lia.
        replace (s2 + 52) with (Z.log2 f2) by lia. assumption. }
      lia. }
    assert (S12 : 2 ^ 53 * 2 ^ s1 <= 2 ^ 52 * 2 ^ s2).
    { rewrite <- !Z.pow_add_r by lia. apply Z.pow_le_mono_r; lia. }
    nia.
Qed.

End RoundingFacts.

Lemma RN_mono (x y : Q) : (0 <= x)%Q -> (x <= y)%Q -> (RN x <= RN y)%Q.
Proof.
  intros Hx Hxy.
  assert (Hy : (0 <= y)%Q) by (eapply Qle_trans; eassumption).
  unfold RN. rewrite !Qred_correct.
  destruct x as [a b], y as [c d]. unfold Qle in *. cbn [Qnum Qden] in *.
  rewrite !Z.mul_1_r in *.
  rewrite (Z.abs_eq a), (Z.abs_eq c) by lia.
  apply Z.mul_le_mono_nonneg_r; [lia|].
  generalize (Pos2Z.is_pos unit_den). generalize (Z.pos unit_den). intros U HU.
  assert (G : forall n p, (0 <= n)%Z ->
            (Z.sgn n * round_units (n * U) (Z.pos p))%Z
            = round_units (n * U) (Z.pos p)).
  { intros n p Hn. destruct (Z.eq_dec n 0%Z) as [->|NZ].
    - rewrite Z.mul_0_l, round_units_zero by lia. reflexivity.
    - rewrite Z.sgn_pos by lia. lia. }
  rewrite !G by lia.
  apply round_units_mono; [apply Z.mul_nonneg_nonneg; lia | lia | lia | ].
  replace (a * U * Z.pos d)%Z with (a * Z.pos d * U)%Z by ring.
  replace (c * U * Z.pos b)%Z with (c * Z.pos b * U)%Z by ring.
  apply Z.mul_le_mono_nonneg_r; lia.
Qed.

Lemma RN_0 : RN 0 = 0%Q.
Proof. vm_compute. reflexivity. Qed.

Lemma RN_1 : RN 1 = 1%Q.
Proof. vm_compute. reflexivity. Qed.

Lemma RN_100 : RN 100 = 100%Q.
Proof. vm_compute. reflexivity. Qed.

Lemma RN_nonneg (x : Q) : (0 <= x)%Q -> (0 <= RN x)%Q.
Proof. intros H. rewrite <- RN_0. apply RN_mono; [apply Qle_refl|exact H]. Qed.

(** ** Rounding to binary64 is accurate *)

Section RoundingError.

Local Open Scope Z_scope.

Lemma div_half_even_error (n d : Z) :
  0 < d -> 2 * Z.abs (div_half_even n d * d - n) <= d.
Proof.
  intros Hd.
  pose proof (Z.div_mod n d ltac:(lia)) as E.
  pose proof (Z.mod_pos_bound n d Hd) as R.
  unfold div_half_even.
  set (q := n / d) in *. set (r := n mod d) in *.
  destruct (Z.compare_spec (2 * r) d) as [C|C|C]; [destruct (Z.even q)| |]; nia.
Qed.

Lemma round_units_error (n d j : Z) :
  0 <= n -> 0 < d -> 0 <= j -> n / d < 2 ^ (j + 53) ->
  2 * Z.abs (round_units n d * d - n) <= d * 2 ^ j.
Proof.
  intros Hn Hd Hj Hf. unfold round_units.
  set (f := n / d) in *.
  assert (Hf0 : 0 <= f) by (apply Z.div_pos; lia).
  set (s := Z.max (Z.log2 f - 52) 0).
  assert (Hs : 0 <= s <= j).
  { subst s. destruct (Z.eq_dec f 0) as [->|NZ]; [cbn; lia|].
    assert (Z.log2 f < j + 53) by (apply Z.log2_lt_pow2; lia). lia. }
  assert (P : 0 < 2 ^ s) by (apply Z.pow_pos_nonneg; lia).
  assert (Q : 2 ^ s <= 2 ^ j) by (apply Z.pow_le_mono_r; lia).
  pose proof (div_half_even_error n (d * 2 ^ s) ltac:(nia)) as E.
  replace (div_half_even n (d * 2 ^ s) * 2 ^ s * d)
    with (div_half_even n (d * 2 ^ s) * (d * 2 ^ s)) by ring.
  nia.
Qed.

End RoundingError.

(** The rounding error below [2^k]: at most [2^(k-54)]. *)
Lemma RN_error (x : Q) (k : nat) :
  (0 <= x)%Q -> (x < inject_Z (2 ^ Z.of_nat k))%Q ->
  (Qabs (RN x - x) <= Qmake (2 ^ Z.of_nat k) (2 ^ 54))%Q.
Proof.
  intros H0 Hk.
  unfold RN. rewrite Qred_correct.
  destruct x as [a b]. unfold Qle, Qlt in H0, Hk. cbn [Qnum Qden inject_Z] in *.
  rewrite Z.mul_1_r in H0. rewrite Z.mul_1_r in Hk.
  rewrite (Z.abs_eq a) by lia.
  assert (HU : Z.pos unit_den = (2 ^ 1074)%Z) by (vm_compute; reflexivity).
  set (K := (2 ^ Z.of_nat k)%Z) in *.
  assert (HK : (0 < K)%Z) by (subst K; apply Z.pow_pos_nonneg; lia).
  assert (Hs : (Z.sgn a * round_units (a * Z.pos unit_den) (Z.pos b))%Z
               = round_units (a * Z.pos unit_den) (Z.pos b)).
  { destruct (Z.eq_dec a 0%Z) as [->|NZ].
    - rewrite Z.mul_0_l, round_units_zero by lia. reflexivity.
    - rewrite Z.sgn_pos by lia. lia. }
  rewrite Hs. clear Hs.
  assert (Hpow : (2 ^ (Z.of_nat k + 1021 + 53) = K * Z.pos unit_den)%Z).
  { rewrite HU. subst K. rewrite <- Z.pow_add_r by lia. f_equal. lia. }
  assert (Hdiv : (a * Z.pos unit_den / Z.pos b < 2 ^ (Z.of_nat k + 1021 + 53))%Z).
  { rewrite Hpow. apply Z.div_lt_upper_bound; [lia|].
    replace (Z.pos b * (K * Z.pos unit_den))%Z
      with (K * Z.pos b * Z.pos unit_den)%Z by ring.
    apply Z.mul_lt_mono_pos_r; lia. }
  pose proof (round_units_error (a * Z.pos unit_den) (Z.pos b) (Z.of_nat k + 1021)
                ltac:(lia) ltac:(lia) ltac:(lia) Hdiv) as E.
  rewrite (Z.pow_add_r 2 (Z.of_nat k + 1021) 53) in Hpow by lia.
  set (u := round_units (a * Z.pos unit_den) (Z.pos b)) in *.
  set (P := (2 ^ (Z.of_nat k + 1021))%Z) in *.
  assert (HP : (0 < P)%Z) by (subst P; apply Z.pow_pos_nonneg; lia).
  apply Qabs_Qle_condition.
  unfold Qle, Qminus, Qplus, Qopp. cbn [Qnum Qden].
  rewrite !Pos2Z.inj_mul.
  replace (Z.pos (2 ^ 54)) with (2 * 2 ^ 53)%Z by reflexivity.
  clearbody u P K. clear HU Hdiv Hk.
  generalize dependent (Z.pos unit_den). intros U Hpow E.
  set (T := (2 ^ 53)%Z) in *. assert (HT : (0 < T)%Z) by reflexivity. clearbody T.
  set (D := (u * Z.pos b - a * U)%Z) in *.
  replace (u * Z.pos b + - a * U)%Z with D by (subst D; ring).
  assert (M : (2 * Z.abs D * T <= Z.pos b * P * T)%Z)
    by (apply Z.mul_le_mono_nonneg_r; lia).
  replace (Z.pos b * P * T)%Z with (Z.pos b * (K * U))%Z in M
    by (rewrite <- Hpow; ring).
  lia.
Qed.

(** ** Sets of tokens and lists of tokens *)

Lemma size_inter_lists (l1 l2 : list string) :
  size ((list_to_set l1 : gset string) ∩ list_to_set l2)
  = length (list_intersection (remove_dups l1) (remove_dups l2)).
Proof.
  rewrite <- (size_list_to_set (C := gset string)).
  - f_equal. apply leibniz_equiv. apply set_equiv. intros x.
    rewrite elem_of_intersection, !elem_of_list_to_set,
      list_elem_of_intersection, !elem_of_remove_dups. reflexivity.
  - apply NoDup_list_intersection, NoDup_remove_dups.
Qed.

Lemma size_union_lists (l1 l2 : list string) :
  size ((list_to_set l1 : gset string) ∪ list_to_set l2)
  = length (list_union (remove_dups l1) (remove_dups l2)).
Proof.
  rewrite <- (size_list_to_set (C := gset string)).
  - f_equal. apply leibniz_equiv. apply set_equiv. intros x.
    rewrite elem_of_union, !elem_of_list_to_set,
      list_elem_of_union, !elem_of_remove_dups. reflexivity.
  - apply NoDup_list_union; apply NoDup_remove_dups.
Qed.

Lemma list_to_set_empty_iff (l : list string) :
  (list_to_set l : gset string) = ∅ <-> remove_dups l = [].
Proof.
  split; intros H.
  - destruct (remove_dups l) as [|x k] eqn:E; [reflexivity|].
    assert (Hx : x ∈ remove_dups l) by (rewrite E; left).
    rewrite elem_of_remove_dups in Hx.
    assert (Hs : x ∈ (list_to_set l : gset string)) by (apply elem_of_list_to_set; exact Hx).
    rewrite H in Hs. set_solver.
  - apply leibniz_equiv. apply set_equiv. intros x.
    rewrite elem_of_list_to_set, <- elem_of_remove_dups, H. set_solver.
Qed.

(** ** pronunciation_feedback *)

Lemma RN_zero_num (p : positive) : RN (0 # p) = 0%Q.
Proof.
  unfold RN. cbn [Qnum Qden Z.abs Z.sgn Z.mul]. reflexivity.
Qed.

Lemma list_union_length_cons (x : string) (a b : list string) :
  exists n, length (list_union (x :: a) b) = S n.
Proof.
  destruct (list_union (x :: a) b) as [|y k] eqn:E; [|eexists; reflexivity].
  assert (H : x ∈ list_union (x :: a) b) by (apply list_elem_of_union; left; left).
  rewrite E in H. inversion H.
Qed.

Lemma pronunciation_sim_spec (target transcript : string) :
  pronunciation_sim target transcript = Ok (RN (spec_jaccard target transcript)).
Proof.
  unfold pronunciation_sim, token_set, spec_jaccard, spec_tokens.
  destruct (decide (list_to_set (PyStr.split (PyStr.lower target)) = (∅ : gset string)))
    as [E|NE].
  - apply list_to_set_empty_iff in E. rewrite E, RN_0. reflexivity.
  - rewrite size_inter_lists, size_union_lists.
    destruct (remove_dups (PyStr.split (PyStr.lower target))) as [|x a] eqn:E.
    + exfalso. apply NE. apply list_to_set_empty_iff. exact E.
    + destruct (list_union_length_cons x a
                  (remove_dups (PyStr.split (PyStr.lower transcript)))) as [n Hn].
      rewrite Hn. reflexivity.
Qed.

Lemma pronunciation_sim_sym (target transcript : string) :
  pronunciation_sim target transcript = pronunciation_sim transcript target.
Proof.
  unfold pronunciation_sim.
  set (a := token_set target). set (b := token_set transcript).
  assert (Z0 : forall c : gset string, c <> ∅ ->
            int_truediv (size (c ∩ (∅ : gset string))) (size (c ∪ ∅)) = Ok 0%Q).
  { intros c Hc. rewrite intersection_empty_r_L, union_empty_r_L, size_empty.
    destruct (size c) as [|n] eqn:Hn.
    - apply size_empty_inv in Hn. exfalso. apply Hc. apply leibniz_equiv. exact Hn.
    - cbn [int_truediv Z.of_nat]. rewrite RN_zero_num. reflexivity. }
  destruct (decide (a = ∅)) as [Ea|Na], (decide (b = ∅)) as [Eb|Nb].
  - reflexivity.
  - rewrite Ea. symmetry. apply Z0. exact Nb.
  - rewrite Eb. apply Z0. exact Na.
  - rewrite (intersection_comm_L a b), (union_comm_L a b). reflexivity.
Qed.

Lemma pronunciation_feedback_response {store : Type} (gw : Gateway store)
    (payload : PronunciationRequest.t) (w : world store) (sim : Q) :
  pronunciation_sim (PronunciationRequest.target payload)
    (PronunciationRequest.transcript payload) = Ok sim ->
  fst (pronunciation_feedback gw payload w)
  = Http200 {| PronunciationFeedback.similarity := py_round sim 2;
               PronunciationFeedback.advice := pronunciation_advice sim |}.
Proof.
  intros H. unfold pronunciation_feedback. rewrite H.
  unfold bind, create_document.
  destruct (gw_create_document gw _ _ (w_db w)) as [r s]. reflexivity.
Qed.

Lemma py_round_0 (n : nat) : py_round 0 n = 0%Q.
Proof.
  unfold py_round. cbn [Qnum Qden Z.abs Z.sgn Z.mul]. apply RN_zero_num.
Qed.

Lemma spec_jaccard_bounds (target transcript : string) :
  (0 <= spec_jaccard target transcript <= 1)%Q.
Proof.
  unfold spec_jaccard, spec_tokens.
  set (l1 := PyStr.split (PyStr.lower target)).
  set (l2 := PyStr.split (PyStr.lower transcript)).
  assert (Hsize : size ((list_to_set l1 : gset string) ∩ list_to_set l2)
                  <= size ((list_to_set l1 : gset string) ∪ list_to_set l2))
    by (apply subseteq_size; intros x; rewrite elem_of_intersection, elem_of_union;
        tauto).
  rewrite size_inter_lists, size_union_lists in Hsize.
  destruct (remove_dups l1) as [|x a] eqn:E; [split; discriminate|].
  destruct (list_union_length_cons x a (remove_dups l2)) as [n Hn].
  unfold Qle. cbn [Qnum Qden]. rewrite Hn in *.
  rewrite <- positive_nat_Z, Nat2Pos.id by lia. lia.
Qed.

Lemma pronunciation_sim_accurate (target transcript : string) :
  (Qabs (RN (spec_jaccard target transcript) - spec_jaccard target transcript)
   <= 1 # 2 ^ 53)%Q.
Proof.
  destruct (spec_jaccard_bounds target transcript) as [H0 H1].
  eapply Qle_trans.
  - apply (RN_error _ 1 H0). eapply Qle_lt_trans; [exact H1|]. reflexivity.
  - vm_compute. discriminate.
Qed.

(** ** Whitespace tokenization *)

Lemma append_cons (c : ascii) (s t : string) :
  String c s ++ t = String c (s ++ t).
Proof. reflexivity. Qed.

Lemma append_empty_r (s : string) : s ++ "" = s.
Proof.
  induction s as [|c s IH]; [reflexivity|].
  rewrite append_cons. f_equal. exact IH.
Qed.

Lemma append_associative (s t u : string) : (s ++ t) ++ u = s ++ (t ++ u).
Proof.
  induction s as [|c s IH]; [reflexivity|].
  rewrite !append_cons. f_equal. exact IH.
Qed.

Lemma spaceless_append (s t : string) :
  spaceless (s ++ t) = spaceless s && spaceless t.
Proof.
  induction s as [|c s IH]; [reflexivity|].
  rewrite append_cons. cbn [spaceless]. rewrite IH.
  destruct (PyStr.isspace c); reflexivity.
Qed.

Lemma word_append_char (tok : string) (c : ascii) :
  spaceless tok = true -> PyStr.isspace c = false ->
  word (tok ++ String c "") = true.
Proof.
  intros Ht Hc.
  assert (H : spaceless (tok ++ String c "") = true).
  { rewrite spaceless_append, Ht. cbn [spaceless]. rewrite Hc. reflexivity. }
  destruct tok as [|a tok]; [exact H|]. rewrite append_cons in *. exact H.
Qed.

Lemma word_spaceless (tok : string) : word tok = true -> spaceless tok = true.
Proof. destruct tok; [discriminate|]. intros H; exact H. Qed.

Lemma tokenized_cons_space (c : ascii) (s : string) (l : list string) :
  PyStr.isspace c = true -> tokenized s l -> tokenized (String c s) l.
Proof.
  intros Hc H. destruct H as [pad Hp|pad tok Hp Ht|pad tok d rest toks Hp Ht Hd Hr].
  - apply tokenized_blank. cbn [blank]. rewrite Hc, Hp. reflexivity.
  - rewrite <- append_cons. apply tokenized_last; [|exact Ht].
    cbn [blank]. rewrite Hc, Hp. reflexivity.
  - rewrite <- append_cons. apply tokenized_more; try assumption.
    cbn [blank]. rewrite Hc, Hp. reflexivity.
Qed.

(** [split_from] reads on from a word [tok] that follows the whitespace
    [pad]; [split] starts with no word read. *)
Lemma split_from_tokenized (s : string) :
  (forall pad tok, blank pad = true -> word tok = true ->
                   tokenized (pad ++ tok ++ s) (PyStr.split_from tok s))
  /\ tokenized s (PyStr.split_from "" s).
Proof.
  induction s as [|c s [IH1 IH2]].
  - split.
    + intros pad tok Hp Ht. rewrite append_empty_r.
      destruct tok as [|a tok]; [discriminate|].
      apply tokenized_last; assumption.
    + apply tokenized_blank. reflexivity.
  - split.
    + intros pad tok Hp Ht. cbn [PyStr.split_from].
      destruct (PyStr.isspace c) eqn:Hc.
      * destruct tok as [|a tok]; [discriminate|].
        apply tokenized_more; assumption.
      * replace (pad ++ tok ++ String c s)
          with (pad ++ (tok ++ String c "") ++ s)
          by (rewrite (append_associative tok); reflexivity).
        apply IH1; [exact Hp|].
        apply word_append_char; [apply word_spaceless; exact Ht|exact Hc].
    + cbn [PyStr.split_from]. destruct (PyStr.isspace c) eqn:Hc.
      * apply tokenized_cons_space; assumption.
      * apply (IH1 "" (String c "")); [reflexivity|].
        cbn [word spaceless]. rewrite Hc. reflexivity.
Qed.

Lemma split_from_blank (pad s : string) :
  blank pad = true -> PyStr.split_from "" (pad ++ s) = PyStr.split_from "" s.
Proof.
  induction pad as [|c pad IH]; [reflexivity|].
  cbn [blank]. intros H. apply andb_prop in H. destruct H as [Hc Hp].
  rewrite append_cons. cbn [PyStr.split_from]. rewrite Hc. apply IH. exact Hp.
Qed.

Lemma split_from_spaceless (t acc s : string) :
  spaceless t = true ->
  PyStr.split_from acc (t ++ s) = PyStr.split_from (acc ++ t) s.
Proof.
  revert acc. induction t as [|c t IH]; intros acc H.
  - rewrite append_empty_r. reflexivity.
  - cbn [spaceless] in H. apply andb_prop in H. destruct H as [Hc Ht].
    rewrite append_cons. cbn [PyStr.split_from].
    destruct (PyStr.isspace c); [discriminate|].
    rewrite IH by exact Ht. rewrite append_associative. reflexivity.
Qed.

(** A text has one tokenization, the one [split] returns. *)
Lemma tokenized_iff_split (s : string) (l : list string) :
  tokenized s l <-> l = PyStr.split s.
Proof.
  split.
  - unfold PyStr.split. intros H.
    induction H as [pad Hp|pad tok Hp Ht|pad tok c rest toks Hp Ht Hc Hr IH].
    + rewrite <- (append_empty_r pad), split_from_blank by exact Hp. reflexivity.
    + rewrite split_from_blank by exact Hp.
      rewrite <- (append_empty_r tok) at 2.
      rewrite split_from_spaceless by (apply word_spaceless; exact Ht).
      destruct tok; [discriminate|]. reflexivity.
    + rewrite split_from_blank by exact Hp.
      rewrite split_from_spaceless by (apply word_spaceless; exact Ht).
      cbn [PyStr.split_from]. rewrite Hc.
      destruct tok as [|a tok]; [discriminate|].
      change ("" ++ String a tok) with (String a tok). cbv iota.
      rewrite IH. reflexivity.
  - intros ->. apply split_from_tokenized.
Qed.

(** ** Rounding to two decimal places *)

Lemma div_half_even_tie (n d : Z) :
  (0 < d)%Z -> (2 * Z.abs (div_half_even n d * d - n) = d)%Z ->
  Z.even (div_half_even n d) = true.
Proof.
  intros Hd.
  pose proof (Z.div_mod n d ltac:(lia)) as E.
  pose proof (Z.mod_pos_bound n d Hd) as R.
  unfold div_half_even.
  set (q := (n / d)%Z) in *. set (r := (n mod d)%Z) in *.
  destruct (Z.compare_spec (2 * r) d) as [C|C|C].
  - destruct (Z.even q) eqn:Ev; [intros _; exact Ev|].
    intros _. rewrite Z.even_add, Ev. reflexivity.
  - intros H. exfalso. nia.
  - intros H. exfalso. nia.
Qed.

Lemma hundredth_distance (k a : Z) (b : positive) :
  (Qabs (inject_Z k / 100 - (a # b))
   == Z.abs (k * Z.pos b - a * 100) # (100 * b))%Q.
Proof.
  assert (E : (inject_Z k / 100 - (a # b)
               == (k * Z.pos b - a * 100) # (100 * b))%Q).
  { unfold Qeq, Qdiv, Qminus, Qplus, Qmult, Qopp, Qinv, inject_Z.
    cbn [Qnum Qden]. rewrite !Pos2Z.inj_mul. ring. }
  rewrite E. reflexivity.
Qed.

(** [round(x, 2)] of a float between 0 and 1 is the float of the decimal
    with two places nearest to [x], ties to even. *)
Lemma py_round_hundredth (x : Q) :
  (0 <= x)%Q -> (x <= 1)%Q ->
  exists k : Z,
    (0 <= k <= 100)%Z /\ py_round x 2 = literal k 2 /\ nearest_hundredth k x.
Proof.
  intros H0 H1.
  destruct x as [a b]. unfold Qle in H0, H1. cbn [Qnum Qden] in *.
  rewrite Z.mul_1_r in H0. rewrite Z.mul_1_r, Z.mul_1_l in H1.
  set (k := div_half_even (a * 100) (Z.pos b)).
  assert (Hk0 : (0 <= k)%Z).
  { pose proof (div_half_even_bounds (a * 100) (Z.pos b)) as B.
    assert (0 <= a * 100 / Z.pos b)%Z by (apply Z.div_pos; lia). lia. }
  assert (Hk1 : (k <= 100)%Z).
  { pose proof (div_half_even_mono (a * 100) (Z.pos b) 100 1
                  ltac:(lia) ltac:(lia) ltac:(lia)) as M.
    exact M. }
  exists k. split; [lia|]. split.
  - unfold py_round, literal. cbn [Qnum Qden].
    change (Z.pos (pow10 2)) with 100%Z.
    rewrite (Z.abs_eq a) by lia. fold k.
    f_equal. f_equal.
    destruct (Z.eq_dec a 0%Z) as [->|NZ].
    + subst k. reflexivity.
    + rewrite Z.sgn_pos by lia. lia.
  - unfold nearest_hundredth.
    pose proof (div_half_even_error (a * 100) (Z.pos b) ltac:(lia)) as E.
    pose proof (div_half_even_tie (a * 100) (Z.pos b) ltac:(lia)) as T.
    fold k in E, T.
    split.
    + rewrite hundredth_distance. unfold Qle. cbn [Qnum Qden].
      rewrite Pos2Z.inj_mul. lia.
    + intros Heq. apply T.
      rewrite hundredth_distance in Heq. unfold Qeq in Heq. cbn [Qnum Qden] in Heq.
      rewrite Pos2Z.inj_mul in Heq. lia.
Qed.

(** C1: [pronunciation_feedback] computes the Jaccard similarity of the two
    token sets.  Each text, lowercased, has exactly one whitespace
    tokenization ([tokenized]: words separated by whitespace); [sim] is the
    binary64 value nearest to the number of distinct tokens in both lists
    over the number of distinct tokens in either, within [2^-53] of it, and
    0 when the target has no token.  The response carries [sim] rounded to
    two decimal places: the float of the decimal [k / 100] nearest to
    [sim], ties to even.  The handler never fails. *)
Theorem pronunciation_similarity_is_rounded_jaccard {store : Type}
    (gw : Gateway store) (payload : PronunciationRequest.t) (w : world store) :
  let target := PronunciationRequest.target payload in
  let transcript := PronunciationRequest.transcript payload in
  exists (target_tokens said_tokens : list string) (sim : Q)
         (body : PronunciationFeedback.t) (k : Z),
    (forall l, tokenized (PyStr.lower target) l <-> l = target_tokens)
    /\ (forall l, tokenized (PyStr.lower transcript) l <-> l = said_tokens)
    /\ pronunciation_sim target transcript = Ok sim
    /\ sim = RN (jaccard target_tokens said_tokens)
    /\ (Qabs (sim - jaccard target_tokens said_tokens) <= 1 # 2 ^ 53)%Q
    /\ fst (pronunciation_feedback gw payload w) = Http200 body
    /\ PronunciationFeedback.similarity body = literal k 2
    /\ (0 <= k <= 100)%Z
    /\ nearest_hundredth k sim
    /\ (target_tokens = [] ->
        sim = 0%Q /\ PronunciationFeedback.similarity body = 0%Q).
Proof.
  intros target transcript.
  pose proof (pronunciation_sim_spec target transcript) as Hsim.
  destruct (spec_jaccard_bounds target transcript) as [J0 J1].
  assert (S0 : (0 <= RN (spec_jaccard target transcript))%Q)
    by (apply RN_nonneg; exact J0).
  assert (S1 : (RN (spec_jaccard target transcript) <= 1)%Q)
    by (rewrite <- RN_1; apply RN_mono; assumption).
  destruct (py_round_hundredth _ S0 S1) as (k & Hk & Hround & Hnear).
  exists (PyStr.split (PyStr.lower target)), (PyStr.split (PyStr.lower transcript)).
  exists (RN (spec_jaccard target transcript)).
  exists {| PronunciationFeedback.similarity :=
              py_round (RN (spec_jaccard target transcript)) 2;
            PronunciationFeedback.advice :=
              pronunciation_advice (RN (spec_jaccard target transcript)) |}.
  exists k.
  split; [intros l; apply tokenized_iff_split|].
  split; [intros l; apply tokenized_iff_split|].
  split; [exact Hsim|]. split; [reflexivity|].
  split; [apply pronunciation_sim_accurate|].
  split; [apply pronunciation_feedback_response; exact Hsim|].
  cbn [PronunciationFeedback.similarity].
  split; [exact Hround|]. split; [exact Hk|]. split; [exact Hnear|].
  intros Hempty. unfold spec_jaccard, spec_tokens.
  fold target transcript. rewrite Hempty. cbn [remove_dups].
  rewrite RN_0. split; [reflexivity|apply py_round_0].
Qed.

(** C1 on the target [The cat sat] said as [the  CAT]: the tokens are
    [the, cat, sat] and [the, cat], [sim] is the float nearest to 2/3, and
    the response carries the float [0.67]. *)
Lemma pronunciation_similarity_is_rounded_jaccard_witness :
  exists body,
    pronunciation_sim "The cat sat" "the  CAT"
    = Ok (6004799503160661 # 9007199254740992)
    /\ fst (pronunciation_feedback working_gateway
              {| PronunciationRequest.student_id := None;
                 PronunciationRequest.target := "The cat sat";
                 PronunciationRequest.transcript := "the  CAT" |} fresh_world)
       = Http200 body
    /\ PronunciationFeedback.similarity body = 6034823500676465 # 9007199254740992.
Proof.
  pose proof (pronunciation_similarity_is_rounded_jaccard working_gateway
                {| PronunciationRequest.student_id := None;
                   PronunciationRequest.target := "The cat sat";
                   PronunciationRequest.transcript := "the  CAT" |} fresh_world) as H.
  cbv zeta in H. cbn [PronunciationRequest.target PronunciationRequest.transcript] in H.
  destruct H as (tt & st & sim & body & k & Ht & Hs & Hsim & Heq & _ & Hresp
                 & Hbody & Hk & [Hnear _] & _).
  assert (Et : ["the"; "cat"; "sat"] = tt).
  { apply Ht.
    exact (tokenized_more "" "the" " " "cat sat" ["cat"; "sat"]
             eq_refl eq_refl eq_refl
             (tokenized_more "" "cat" " " "sat" ["sat"] eq_refl eq_refl eq_refl
                (tokenized_last "" "sat" eq_refl eq_refl))). }
  assert (Es : ["the"; "cat"] = st).
  { apply Hs.
    exact (tokenized_more "" "the" " " " cat" ["cat"] eq_refl eq_refl eq_refl
             (tokenized_last " " "cat" eq_refl eq_refl)). }
  subst tt st.
  assert (Ev : sim = 6004799503160661 # 9007199254740992)
    by (rewrite Heq; vm_compute; reflexivity).
  clear Heq. subst sim.
  assert (Ek : k = 67%Z).
  { apply Qabs_Qle_condition in Hnear. destruct Hnear as [L U].
    unfold Qle, Qdiv, Qminus, Qplus, Qmult, Qopp, Qinv, inject_Z in L, U.
    cbn [Qnum Qden] in L, U. lia. }
  subst k.
  exists body. split; [exact Hsim|]. split; [exact Hresp|].
  rewrite Hbody. vm_compute. reflexivity.
Defined.

(** C7: the similarity is symmetric in target and transcript, the case of
    a text without tokens included, and so is the response. *)
Theorem pronunciation_similarity_symmetric {store : Type} (gw : Gateway store)
    (student_id : option string) (target transcript : string) (w : world store) :
  pronunciation_sim target transcript = pronunciation_sim transcript target
  /\ fst (pronunciation_feedback gw
            {| PronunciationRequest.student_id := student_id;
               PronunciationRequest.target := target;
               PronunciationRequest.transcript := transcript |} w)
     = fst (pronunciation_feedback gw
              {| PronunciationRequest.student_id := student_id;
                 PronunciationRequest.target := transcript;
                 PronunciationRequest.transcript := target |} w).
Proof.
  pose proof (pronunciation_sim_sym target transcript) as Hsym.
  split; [exact Hsym|].
  pose proof (pronunciation_sim_spec target transcript) as H1.
  rewrite (pronunciation_feedback_response gw
             (PronunciationRequest.Build_t student_id target transcript) w _ H1).
  rewrite Hsym in H1.
  rewrite (pronunciation_feedback_response gw
             (PronunciationRequest.Build_t student_id transcript target) w _ H1).
  reflexivity.
Qed.

(** The comparison of the float [sim] with the float [0.6] decides as the
    comparison of the exact quotient with the real 0.6 does, for every
    quotient of two lengths below [2^49]. *)
Lemma below_threshold_exact (a b : nat) :
  1 <= b -> (Z.of_nat b < 2 ^ 49)%Z ->
  (RN (Z.of_nat a # Pos.of_nat b) < sim_threshold)%Q
  <-> (Z.of_nat a # Pos.of_nat b < 6 # 10)%Q.
Proof.
  intros Hb1 Hb2.
  assert (Hden : Z.pos (Pos.of_nat b) = Z.of_nat b)
    by (rewrite <- positive_nat_Z, Nat2Pos.id by lia; reflexivity).
  assert (H0 : (0 <= Z.of_nat a # Pos.of_nat b)%Q)
    by (unfold Qle; cbn [Qnum Qden]; lia).
  split; intros H.
  - apply Qnot_le_lt. intros Hc. apply (Qlt_not_le _ _ H).
    change sim_threshold with (RN (6 # 10)).
    apply RN_mono; [discriminate|exact Hc].
  - apply Qle_lt_trans with (y := below_sim_threshold).
    + replace below_sim_threshold with (RN below_sim_threshold)
        by (vm_compute; reflexivity).
      apply RN_mono; [exact H0|].
      unfold Qlt in H. unfold Qle, below_sim_threshold. cbn [Qnum Qden] in *.
      rewrite Hden in *. lia.
    + vm_compute. reflexivity.
Qed.

(** The advice in terms of the exact Jaccard similarity: the two corrective
    tips exactly when it is below 0.6, for token sets of fewer than [2^49]
    tokens together. *)
Lemma pronunciation_advice_exact (target transcript : string) :
  (Z.of_nat (length (list_union (spec_tokens target) (spec_tokens transcript)))
   < 2 ^ 49)%Z ->
  pronunciation_advice (RN (spec_jaccard target transcript))
  = [advice_slow; advice_endings]
  <-> (spec_jaccard target transcript < 6 # 10)%Q.
Proof.
  intros Hsize.
  assert (Hadv : forall sim,
            pronunciation_advice sim = [advice_slow; advice_endings]
            <-> (sim < sim_threshold)%Q).
  { intros sim. unfold pronunciation_advice, append.
    destruct (Qlt_le_dec sim sim_threshold) as [Hlt|Hge]; cbn [app].
    - split; [intros _; exact Hlt|reflexivity].
    - split; [discriminate|]. intros Hlt. exfalso. apply (Qlt_not_le _ _ Hlt Hge). }
  rewrite Hadv. unfold spec_jaccard in *.
  destruct (spec_tokens target) as [|x a] eqn:E.
  - rewrite RN_0. split; intros _; vm_compute; reflexivity.
  - destruct (list_union_length_cons x a (spec_tokens transcript)) as [n Hn].
    apply below_threshold_exact; [rewrite Hn; lia|exact Hsize].
Qed.

(** C4: the advice comes from exactly one branch: the two corrective tips
    when the computed similarity is below the float 0.6, the single
    encouragement when it is the float 0.6 or more; the two lists share no
    tip.  For token sets of fewer than [2^49] tokens together the float
    comparison decides as the exact Jaccard quotient does: the corrective
    tips exactly when the quotient is below 6/10. *)
Theorem pronunciation_advice_one_branch {store : Type} (gw : Gateway store)
    (payload : PronunciationRequest.t) (w : world store) :
  let target := PronunciationRequest.target payload in
  let transcript := PronunciationRequest.transcript payload in
  exists sim body,
    pronunciation_sim target transcript = Ok sim
    /\ fst (pronunciation_feedback gw payload w) = Http200 body
    /\ ((sim < RN (6 # 10))%Q ->
        PronunciationFeedback.advice body = [advice_slow; advice_endings])
    /\ ((RN (6 # 10) <= sim)%Q ->
        PronunciationFeedback.advice body = [advice_great])
    /\ (PronunciationFeedback.advice body = [advice_slow; advice_endings]
        \/ PronunciationFeedback.advice body = [advice_great])
    /\ ~ In advice_great [advice_slow; advice_endings]
    /\ ~ In advice_slow [advice_great]
    /\ ~ In advice_endings [advice_great]
    /\ ((Z.of_nat (length (list_union (spec_tokens target) (spec_tokens transcript)))
         < 2 ^ 49)%Z ->
        (PronunciationFeedback.advice body = [advice_slow; advice_endings]
         <-> (spec_jaccard target transcript < 6 # 10)%Q)
        /\ (PronunciationFeedback.advice body = [advice_great]
            <-> (6 # 10 <= spec_jaccard target transcript)%Q)).
Proof.
  intros target transcript.
  pose proof (pronunciation_sim_spec target transcript) as Hsim.
  eexists. eexists. split; [exact Hsim|].
  split; [apply pronunciation_feedback_response; exact Hsim|].
  cbn [PronunciationFeedback.advice].
  assert (Hcases : forall sim,
            ((sim < RN (6 # 10))%Q
             /\ pronunciation_advice sim = [advice_slow; advice_endings])
            \/ ((RN (6 # 10) <= sim)%Q /\ pronunciation_advice sim = [advice_great])).
  { intros sim. unfold pronunciation_advice, append.
    change sim_threshold with (RN (6 # 10)).
    destruct (Qlt_le_dec sim (RN (6 # 10))) as [Hlt|Hge]; cbn [app].
    - left. split; [exact Hlt|reflexivity].
    - right. split; [exact Hge|reflexivity]. }
  split.
  { intros Hlt. destruct (Hcases (RN (spec_jaccard target transcript)))
      as [[_ E]|[Hge _]]; [exact E|].
    exfalso. apply (Qlt_not_le _ _ Hlt Hge). }
  split.
  { intros Hge. destruct (Hcases (RN (spec_jaccard target transcript)))
      as [[Hlt _]|[_ E]]; [|exact E].
    exfalso. apply (Qlt_not_le _ _ Hlt Hge). }
  split.
  { destruct (Hcases (RN (spec_jaccard target transcript)))
      as [[_ E]|[_ E]]; [left|right]; exact E. }
  split; [intros [H|[H|[]]]; discriminate H|].
  split; [intros [H|[]]; discriminate H|].
  split; [intros [H|[]]; discriminate H|].
  intros Hsize.
  pose proof (pronunciation_advice_exact target transcript Hsize) as Hexact.
  split; [exact Hexact|].
  destruct (Hcases (RN (spec_jaccard target transcript))) as [[_ E]|[_ E]].
  - split.
    + intros H. rewrite E in H. discriminate H.
    + intros Hge. exfalso.
      apply (Qlt_not_le (spec_jaccard target transcript) (6 # 10)); [|exact Hge].
      apply Hexact. exact E.
  - split; [|intros _; exact E].
    intros _. apply Qnot_lt_le. intros Hlt. apply Hexact in Hlt.
    rewrite E in Hlt. discriminate Hlt.
Qed.

(** C4 on both sides of the threshold: three of five tokens shared, a
    quotient of exactly 6/10 and the float 0.6, give the encouragement;
    four of seven, the two corrective tips. *)
Lemma pronunciation_advice_one_branch_witness :
  exists body1 body2,
    pronunciation_sim "a b c d" "a b c e" = Ok (5404319552844595 # 9007199254740992)
    /\ pronunciation_sim "a b c d" "a b c d e f g"
       = Ok (2573485501354569 # 4503599627370496)
    /\ fst (pronunciation_feedback working_gateway
           {| PronunciationRequest.student_id := None;
              PronunciationRequest.target := "a b c d";
              PronunciationRequest.transcript := "a b c e" |} fresh_world)
    = Http200 body1
    /\ PronunciationFeedback.advice body1 = [advice_great]
    /\ fst (pronunciation_feedback working_gateway
              {| PronunciationRequest.student_id := None;
                 PronunciationRequest.target := "a b c d";
                 PronunciationRequest.transcript := "a b c d e f g" |} fresh_world)
       = Http200 body2
    /\ PronunciationFeedback.advice body2 = [advice_slow; advice_endings].
Proof.
  pose proof (pronunciation_advice_one_branch working_gateway
                {| PronunciationRequest.student_id := None;
                   PronunciationRequest.target := "a b c d";
                   PronunciationRequest.transcript := "a b c e" |} fresh_world) as H1.
  pose proof (pronunciation_advice_one_branch working_gateway
                {| PronunciationRequest.student_id := None;
                   PronunciationRequest.target := "a b c d";
                   PronunciationRequest.transcript := "a b c d e f g" |}
                fresh_world) as H2.
  cbv zeta in H1, H2.
  cbn [PronunciationRequest.target PronunciationRequest.transcript] in H1, H2.
  destruct H1 as (sim1 & body1 & _ & Hresp1 & _ & _ & _ & _ & _ & _ & Hexact1).
  destruct H2 as (sim2 & body2 & _ & Hresp2 & _ & _ & _ & _ & _ & _ & Hexact2).
  exists body1, body2.
  split; [vm_compute; reflexivity|]. split; [vm_compute; reflexivity|].
  split; [exact Hresp1|]. split.
  - apply (proj2 (Hexact1 ltac:(vm_compute; reflexivity))).
    vm_compute. discriminate.
  - split; [exact Hresp2|].
    apply (proj1 (Hexact2 ltac:(vm_compute; reflexivity))).
    vm_compute. reflexivity.
Defined.

(** ** submit_activity *)

Lemma lstrip_blank (s : string) : blank s = true -> PyStr.lstrip s = "".
Proof.
  induction s as [|c s IH]; [reflexivity|].
  cbn [blank PyStr.lstrip]. destruct (PyStr.isspace c); [exact IH|discriminate].
Qed.

Lemma lstrip_not_blank (s : string) :
  blank s = false ->
  exists c t, PyStr.lstrip s = String c t /\ PyStr.isspace c = false.
Proof.
  induction s as [|c s IH]; [discriminate|].
  cbn [blank PyStr.lstrip]. destruct (PyStr.isspace c) eqn:E.
  - exact IH.
  - intros _. exists c, s. split; [reflexivity|exact E].
Qed.

Lemma rstrip_starts (c : ascii) (t : string) :
  PyStr.isspace c = false -> exists r, PyStr.rstrip (String c t) = String c r.
Proof.
  intros E. cbn [PyStr.rstrip]. rewrite E.
  destruct (PyStr.rstrip t); eexists; reflexivity.
Qed.

Lemma strip_empty_iff_blank (s : string) : PyStr.strip s = "" <-> blank s = true.
Proof.
  unfold PyStr.strip. split.
  - intros H. destruct (blank s) eqn:B; [reflexivity|].
    destruct (lstrip_not_blank s B) as (c & t & E & Hc).
    rewrite E in H. destruct (rstrip_starts c t Hc) as [r Hr].
    rewrite Hr in H. discriminate H.
  - intros B. rewrite (lstrip_blank s B). reflexivity.
Qed.

(** Trimming leaves a text empty exactly when it is whitespace only, so
    the condition [str(v).strip()] holds unless [str(v)] is blank. *)
Lemma answered_not_blank (v : pyvalue) : answered v = negb (blank (py_str v)).
Proof.
  unfold answered. destruct (blank (py_str v)) eqn:B.
  - apply strip_empty_iff_blank in B. rewrite B. reflexivity.
  - destruct (PyStr.strip (py_str v)) eqn:E; [|reflexivity].
    apply strip_empty_iff_blank in E. rewrite E in B. discriminate B.
Qed.

Lemma count_answered (l : list (string * pyvalue)) :
  sum_list (map (fun _ => 1) (List.filter answered (l.*2)))
  = length (List.filter (fun kv => negb (blank (py_str (snd kv)))) l).
Proof.
  induction l as [|[k v] l IH]; [reflexivity|].
  cbn [fmap list_fmap snd List.filter]. rewrite <- answered_not_blank.
  destruct (answered v); cbn [map sum_list length]; rewrite IH; reflexivity.
Qed.

Lemma activity_non_empty_spec (answers : gmap string pyvalue) :
  activity_non_empty answers = spec_answered_count answers.
Proof. apply count_answered. Qed.

Lemma spec_answered_count_le (answers : gmap string pyvalue) :
  spec_answered_count answers <= size answers.
Proof.
  unfold spec_answered_count. rewrite <- length_map_to_list.
  apply List.filter_length_le.
Qed.

Lemma activity_score_spec (answers : gmap string pyvalue) :
  activity_score answers = Ok (float_mul (RN (spec_completeness answers)) 100).
Proof.
  unfold activity_score, activity_total, spec_completeness.
  rewrite activity_non_empty_spec.
  destruct (Nat.max (size answers) 1) as [|n] eqn:E; [lia|]. reflexivity.
Qed.

Lemma Zpos_of_nat_max (n : nat) :
  Z.pos (Pos.of_nat (Nat.max n 1)) = Z.of_nat (Nat.max n 1).
Proof. rewrite <- positive_nat_Z, Nat2Pos.id by lia. reflexivity. Qed.

Lemma spec_completeness_bounds (answers : gmap string pyvalue) :
  (0 <= spec_completeness answers <= 1)%Q.
Proof.
  pose proof (spec_answered_count_le answers) as H.
  unfold spec_completeness, Qle. cbn [Qnum Qden].
  rewrite Zpos_of_nat_max. lia.
Qed.

Lemma spec_completeness_mono (a1 a2 : gmap string pyvalue) :
  size a1 = size a2 ->
  spec_answered_count a1 <= spec_answered_count a2 ->
  (spec_completeness a1 <= spec_completeness a2)%Q.
Proof.
  intros Hsize Hcount. unfold spec_completeness, Qle. cbn [Qnum Qden].
  rewrite !Zpos_of_nat_max, Hsize.
  apply Z.mul_le_mono_nonneg_r; lia.
Qed.

Lemma percent_mono (x y : Q) :
  (0 <= x)%Q -> (x <= y)%Q -> (float_mul (RN x) 100 <= float_mul (RN y) 100)%Q.
Proof.
  intros Hx Hxy. unfold float_mul. apply RN_mono.
  - apply Qmult_le_0_compat; [apply RN_nonneg; exact Hx|discriminate].
  - apply Qmult_le_compat_r; [apply RN_mono; assumption|discriminate].
Qed.

Lemma percent_bounds (x : Q) :
  (0 <= x <= 1)%Q -> (0 <= float_mul (RN x) 100 <= 100)%Q.
Proof.
  intros [H0 H1]. split.
  - unfold float_mul. apply RN_nonneg.
    apply Qmult_le_0_compat; [apply RN_nonneg; exact H0|discriminate].
  - pose proof (percent_mono x 1 H0 H1) as H.
    replace (float_mul (RN 1) 100) with 100%Q in H; [exact H|].
    vm_compute. reflexivity.
Qed.

Lemma activity_score_bounds (answers : gmap string pyvalue) :
  exists score, activity_score answers = Ok score /\ (0 <= score <= 100)%Q.
Proof.
  eexists. split; [apply activity_score_spec|].
  apply percent_bounds, spec_completeness_bounds.
Qed.

Lemma ActivityResult_new_ok (student_id lesson_id activity_id : string)
    (score : Q) (details : gmap string pyvalue) :
  (0 <= score <= 100)%Q ->
  ActivityResult_new student_id lesson_id activity_id score details
  = Ok {| ActivityResult.student_id := student_id;
          ActivityResult.lesson_id := lesson_id;
          ActivityResult.activity_id := activity_id;
          ActivityResult.score := score;
          ActivityResult.details := Some details;
          ActivityResult.created_at := None |}.
Proof.
  intros [H0 H1]. unfold ActivityResult_new.
  apply Qle_bool_iff in H0, H1. rewrite H0, H1. reflexivity.
Qed.

Lemma submit_activity_response {store : Type} (gw : Gateway store)
    (payload : ActivitySubmission.t) (w : world store) (score : Q) :
  activity_score (ActivitySubmission.answers payload) = Ok score ->
  fst (submit_activity gw payload w)
  = Http200 {| ActivityFeedback.score := py_round score 1;
               ActivityFeedback.feedback := activity_feedback score |}.
Proof.
  intros H. unfold submit_activity. rewrite H. unfold bind.
  destruct (submit_activity_record payload score) as [record|e].
  - unfold create_document.
    destruct (gw_create_document gw _ _ (w_db w)) as [r s]. reflexivity.
  - reflexivity.
Qed.

Lemma activity_feedback_cases (score : Q) :
  ((score < 60)%Q /\ activity_feedback score = [feedback_review])
  \/ ((60 <= score)%Q /\ (score < 85)%Q /\ activity_feedback score = [feedback_nice])
  \/ ((85 <= score)%Q /\ activity_feedback score = [feedback_excellent]).
Proof.
  unfold activity_feedback, append.
  destruct (Qlt_le_dec score 60) as [H60|H60]; [left; split; [exact H60|reflexivity]|].
  destruct (Qlt_le_dec score 85) as [H85|H85].
  - right; left. repeat split; assumption || reflexivity.
  - right; right. split; [exact H85|reflexivity].
Qed.

(** C2: every score the grader produces lies in [0,100] and falls in
    exactly one of the three bands (below 60, from 60 and below 85, from
    85), each with its own feedback string; the feedback list of the
    response has exactly one entry. *)
Theorem activity_feedback_bands {store : Type} (gw : Gateway store)
    (payload : ActivitySubmission.t) (w : world store) :
  exists score body,
    activity_score (ActivitySubmission.answers payload) = Ok score
    /\ (0 <= score <= 100)%Q
    /\ fst (submit_activity gw payload w) = Http200 body
    /\ ActivityFeedback.feedback body = activity_feedback score
    /\ length (ActivityFeedback.feedback body) = 1
    /\ (((score < 60)%Q /\ ActivityFeedback.feedback body = [feedback_review])
        \/ ((60 <= score)%Q /\ (score < 85)%Q
            /\ ActivityFeedback.feedback body = [feedback_nice])
        \/ ((85 <= score)%Q /\ ActivityFeedback.feedback body = [feedback_excellent]))
    /\ feedback_review <> feedback_nice
    /\ feedback_nice <> feedback_excellent
    /\ feedback_review <> feedback_excellent.
Proof.
  destruct (activity_score_bounds (ActivitySubmission.answers payload))
    as (score & Hscore & Hbounds).
  exists score. eexists.
  split; [exact Hscore|]. split; [exact Hbounds|].
  split; [apply submit_activity_response; exact Hscore|].
  cbn [ActivityFeedback.feedback]. split; [reflexivity|].
  split.
  - destruct (activity_feedback_cases score) as [[_ ->]|[(_ & _ & ->)|[_ ->]]];
      reflexivity.
  - split; [apply activity_feedback_cases|].
    repeat split; discriminate.
Qed.

Lemma submit_activity_calls {store : Type} (gw : Gateway store)
    (payload : ActivitySubmission.t) (w : world store) (score : Q)
    (record : ActivityResult.t) :
  activity_score (ActivitySubmission.answers payload) = Ok score ->
  submit_activity_record payload score = Ok record ->
  w_calls (snd (submit_activity gw payload w))
  = (w_calls w ++ [CallCreate "activityresult" (MActivityResult record)])%list.
Proof.
  intros Hs Hr. unfold submit_activity. rewrite Hs. unfold bind. rewrite Hr.
  unfold create_document.
  destruct (gw_create_document gw _ _ (w_db w)) as [r s]. reflexivity.
Qed.

(** C9: the score [submit_activity] computes lies in [0,100], so building
    the [ActivityResult] (score declared with [ge=0, le=100]) succeeds for
    every payload, and the handler hands that record to the store. *)
Theorem activity_record_always_valid {store : Type} (gw : Gateway store)
    (payload : ActivitySubmission.t) (w : world store) :
  exists score record,
    activity_score (ActivitySubmission.answers payload) = Ok score
    /\ (0 <= score <= 100)%Q
    /\ submit_activity_record payload score = Ok record
    /\ ActivityResult.score record = score
    /\ w_calls (snd (submit_activity gw payload w))
       = (w_calls w ++ [CallCreate "activityresult" (MActivityResult record)])%list.
Proof.
  destruct (activity_score_bounds (ActivitySubmission.answers payload))
    as (score & Hscore & Hbounds).
  pose proof (ActivityResult_new_ok (ActivitySubmission.student_id payload)
                (ActivitySubmission.lesson_id payload)
                (ActivitySubmission.activity_id payload) score
                (ActivitySubmission.answers payload) Hbounds) as Hnew.
  exists score. eexists.
  split; [exact Hscore|]. split; [exact Hbounds|].
  split; [exact Hnew|]. split; [reflexivity|].
  exact (submit_activity_calls gw payload w score _ Hscore Hnew).
Qed.

Lemma activity_score_mono (a1 a2 : gmap string pyvalue) (s1 s2 : Q) :
  size a1 = size a2 ->
  spec_answered_count a1 <= spec_answered_count a2 ->
  activity_score a1 = Ok s1 -> activity_score a2 = Ok s2 ->
  (s1 <= s2)%Q.
Proof.
  intros Hsize Hcount H1 H2.
  rewrite activity_score_spec in H1, H2.
  injection H1 as <-. injection H2 as <-.
  apply percent_mono.
  - apply spec_completeness_bounds.
  - apply spec_completeness_mono; assumption.
Qed.

Lemma activity_score_accurate (answers : gmap string pyvalue) :
  (Qabs (float_mul (RN (spec_completeness answers)) 100
         - spec_completeness answers * 100) <= 1 # 2 ^ 45)%Q.
Proof.
  destruct (spec_completeness_bounds answers) as [H0 H1].
  set (c := spec_completeness answers) in *.
  assert (Hr : (Qabs (RN c - c) <= 2 # 2 ^ 54)%Q).
  { eapply Qle_trans.
    - apply (RN_error c 1 H0). eapply Qle_lt_trans; [exact H1|]. reflexivity.
    - vm_compute. discriminate. }
  destruct (percent_bounds c (conj H0 H1)) as [_ Hy].
  assert (Hy0 : (0 <= RN c * 100)%Q)
    by (apply Qmult_le_0_compat; [apply RN_nonneg; exact H0|discriminate]).
  assert (Hy1 : (RN c * 100 <= 100)%Q).
  { apply (Qmult_le_compat_r (RN c) 1 100); [|discriminate].
    rewrite <- RN_1. apply RN_mono; assumption. }
  assert (Hs : (Qabs (RN (RN c * 100) - RN c * 100) <= 128 # 2 ^ 54)%Q).
  { eapply Qle_trans.
    - apply (RN_error (RN c * 100) 7 Hy0).
      eapply Qle_lt_trans; [exact Hy1|]. reflexivity.
    - vm_compute. discriminate. }
  unfold float_mul.
  assert (E : (RN (RN c * 100) - c * 100
               == (RN (RN c * 100) - RN c * 100) + (RN c - c) * 100)%Q) by ring.
  rewrite E. clear E.
  eapply Qle_trans; [apply Qabs_triangle|].
  rewrite Qabs_Qmult.
  apply Qle_trans with (y := ((128 # 2 ^ 54) + (2 # 2 ^ 54) * Qabs 100)%Q).
  - apply Qplus_le_compat; [exact Hs|].
    apply Qmult_le_compat_r; [exact Hr|]. apply Qabs_nonneg.
  - vm_compute. discriminate.
Qed.

Lemma example_answers_score :
  activity_score example_answers = Ok (float_mul (RN (2 # 3)) 100)
  /\ py_round (float_mul (RN (2 # 3)) 100) 1 = example_score
  /\ activity_feedback (float_mul (RN (2 # 3)) 100) = [feedback_nice].
Proof. vm_compute. repeat split; reflexivity. Qed.

(** C5: the score of [submit_activity] is the number of answers whose
    string form is not whitespace only (so is not empty once trimmed),
    divided by the number of answers (at least 1), times 100, computed in
    binary64 arithmetic and so within [2^-45] of the exact percentage; for
    a fixed number of answers it does not decrease when the number of
    non-empty answers grows; the answers q1: blue, q2: empty, q3: cat give
    the score 66.7 after rounding to one decimal place and the nice-work
    feedback, and so do they with spaces for q2; no answers at all score
    0. *)
Theorem activity_score_completeness :
  (forall answers : gmap string pyvalue,
      activity_non_empty answers = spec_answered_count answers
      /\ activity_score answers
         = Ok (float_mul (RN (spec_completeness answers)) 100)
      /\ (Qabs (float_mul (RN (spec_completeness answers)) 100
                - spec_completeness answers * 100) <= 1 # 2 ^ 45)%Q)
  /\ (forall (a1 a2 : gmap string pyvalue) (s1 s2 : Q),
         size a1 = size a2 ->
         activity_non_empty a1 <= activity_non_empty a2 ->
         activity_score a1 = Ok s1 -> activity_score a2 = Ok s2 ->
         (s1 <= s2)%Q)
  /\ (forall (store : Type) (gw : Gateway store) (student lesson activity : string)
             (w : world store),
         fst (submit_activity gw
                {| ActivitySubmission.student_id := student;
                   ActivitySubmission.lesson_id := lesson;
                   ActivitySubmission.activity_id := activity;
                   ActivitySubmission.answers := example_answers |} w)
         = Http200 {| ActivityFeedback.score := example_score;
                      ActivityFeedback.feedback := [feedback_nice] |}
         /\ fst (submit_activity gw
                   {| ActivitySubmission.student_id := student;
                      ActivitySubmission.lesson_id := lesson;
                      ActivitySubmission.activity_id := activity;
                      ActivitySubmission.answers :=
                        list_to_map [("q1", PStr "blue"); ("q2", PStr "  ");
                                     ("q3", PStr "cat")] |} w)
            = Http200 {| ActivityFeedback.score := 4693595236650189 # 70368744177664;
                         ActivityFeedback.feedback := [feedback_nice] |}
         /\ fst (submit_activity gw
                   {| ActivitySubmission.student_id := student;
                      ActivitySubmission.lesson_id := lesson;
                      ActivitySubmission.activity_id := activity;
                      ActivitySubmission.answers := ∅ |} w)
            = Http200 {| ActivityFeedback.score := 0;
                         ActivityFeedback.feedback := [feedback_review] |}).
Proof.
  split; [|split].
  - intros answers. split; [apply activity_non_empty_spec|].
    split; [apply activity_score_spec|].
    apply activity_score_accurate.
  - intros a1 a2 s1 s2 Hsize Hcount. rewrite !activity_non_empty_spec in Hcount.
    apply activity_score_mono; assumption.
  - intros store gw student lesson activity w.
    destruct example_answers_score as (Hs & Hr & Hf).
    split; [|split].
    + rewrite (submit_activity_response gw
                 (ActivitySubmission.Build_t student lesson activity example_answers)
                 w _ Hs).
      rewrite Hr, Hf. reflexivity.
    + assert (Hb : activity_score
                     (list_to_map [("q1", PStr "blue"); ("q2", PStr "  ");
                                   ("q3", PStr "cat")])
                   = Ok (float_mul (RN (2 # 3)) 100)) by (vm_compute; reflexivity).
      rewrite (submit_activity_response gw
                 (ActivitySubmission.Build_t student lesson activity
                    (list_to_map [("q1", PStr "blue"); ("q2", PStr "  ");
                                  ("q3", PStr "cat")]))
                 w _ Hb).
      rewrite Hr, Hf. vm_compute. reflexivity.
    + assert (He : activity_score (∅ : gmap string pyvalue) = Ok 0%Q)
        by (vm_compute; reflexivity).
      rewrite (submit_activity_response gw
                 (ActivitySubmission.Build_t student lesson activity ∅) w _ He).
      vm_compute. reflexivity.
Qed.

(** C5 on four answers, of which one is a space and one is empty: the
    two others count, the null among them, and the score is 50; and the
    monotonicity on two sets of three answers, one answered against two. *)
Lemma activity_score_completeness_witness :
  activity_score
    (list_to_map [("q1", PStr " "); ("q2", PStr "x"); ("q3", PNone); ("q4", PStr "")])
  = Ok 50%Q
  /\ exists s1 s2,
      activity_score
        (list_to_map [("q1", PStr "blue"); ("q2", PStr " "); ("q3", PStr "")])
      = Ok s1
      /\ activity_score example_answers = Ok s2
      /\ (s1 <= s2)%Q.
Proof.
  split.
  - destruct (proj1 activity_score_completeness
                (list_to_map [("q1", PStr " "); ("q2", PStr "x"); ("q3", PNone);
                              ("q4", PStr "")]))
      as (_ & Hscore & _).
    rewrite Hscore. vm_compute. reflexivity.
  - eexists. eexists. split; [vm_compute; reflexivity|].
    split; [vm_compute; reflexivity|].
    apply (proj1 (proj2 activity_score_completeness)
             (list_to_map [("q1", PStr "blue"); ("q2", PStr " "); ("q3", PStr "")])
             example_answers).
    + vm_compute. reflexivity.
    + vm_compute. lia.
    + vm_compute. reflexivity.
    + vm_compute. reflexivity.
Defined.

(** ** tutor_chat *)

Lemma tutor_chat_response {store : Type} (gw : Gateway store)
    (payload : TutorRequest.t) (w : world store) :
  fst (tutor_chat gw payload w)
  = Http200
      {| TutorResponse.reply := tutor_chat_reply (PyStr.strip (TutorRequest.message payload));
         TutorResponse.tips := [];
         TutorResponse.grammar_notes :=
           tutor_chat_grammar (PyStr.strip (TutorRequest.message payload)) |}.
Proof.
  unfold tutor_chat, bind, create_document.
  destruct (gw_create_document gw _ _ (w_db w)) as [r s].
  destruct r as [i|e]; cbn [w_db w_calls ret].
  - destruct (gw_create_document gw _ _ s) as [r' s']. reflexivity.
  - reflexivity.
Qed.

Lemma tutor_chat_grammar_tips (user_text : string) :
  (In tip_agreement (tutor_chat_grammar user_text) <-> has_bad_phrase user_text = true)
  /\ (In tip_capital (tutor_chat_grammar user_text)
      <-> PyStr.starts_lower user_text = true)
  /\ (In tip_punctuation (tutor_chat_grammar user_text)
      <-> lacks_terminal_punctuation user_text = true).
Proof.
  unfold tutor_chat_grammar, append.
  destruct (has_bad_phrase user_text), (PyStr.starts_lower user_text),
    (lacks_terminal_punctuation user_text); cbn [app In];
    repeat split; intros H;
    try reflexivity; try discriminate H;
    try (repeat destruct H as [H|H]; try discriminate H; contradiction);
    auto.
Qed.



(** C10: a message that is empty once stripped gets exactly the
    punctuation tip (the two other checks do not fire on the empty string)
    and the generic reply. *)
Theorem tutor_chat_blank_message {store : Type} (gw : Gateway store)
    (payload : TutorRequest.t) (w : world store) :
  PyStr.strip (TutorRequest.message payload) = "" ->
  fst (tutor_chat gw payload w)
  = Http200 {| TutorResponse.reply := reply_generic;
               TutorResponse.tips := [];
               TutorResponse.grammar_notes := [tip_punctuation] |}
  /\ has_bad_phrase (PyStr.strip (TutorRequest.message payload)) = false
  /\ PyStr.starts_lower (PyStr.strip (TutorRequest.message payload)) = false
  /\ lacks_terminal_punctuation (PyStr.strip (TutorRequest.message payload)) = true.
Proof.
  intros H. rewrite tutor_chat_response, H.
  vm_compute. repeat split; reflexivity.
Qed.

(** C10 on a message of blanks, with a store that accepts every call. *)
Lemma tutor_chat_blank_message_witness :
  PyStr.strip "   " = ""
  /\ fst (tutor_chat working_gateway
            {| TutorRequest.student_id := None; TutorRequest.message := "   " |}
            fresh_world)
     = Http200 {| TutorResponse.reply := reply_generic;
                  TutorResponse.tips := [];
                  TutorResponse.grammar_notes := [tip_punctuation] |}.
Proof.
  split; [reflexivity|].
  apply (tutor_chat_blank_message working_gateway
           {| TutorRequest.student_id := None; TutorRequest.message := "   " |}
           fresh_world).
  reflexivity.
Defined.

(** ** create_student *)

Lemma create_student_calls {store : Type} (gw : Gateway store)
    (student : Student.t) (w : world store) :
  w_calls (snd (create_student gw student w))
  = (w_calls w ++ [CallCreate "student" (MStudent student)])%list.
Proof.
  unfold create_student, bind, create_document.
  destruct (gw_create_document gw _ _ (w_db w)) as [[i|e] s]; reflexivity.
Qed.

(** C8: a [Student] whose age is outside [10,15] is refused by validation
    and the request is answered without any call to the store; an age
    within [10,15] passes, and the record reaches [create_document]. *)
Theorem student_age_checked_before_storage {store : Type} (gw : Gateway store)
    (body : StudentBody) (w : world store) :
  ((body_age body < 10 \/ 15 < body_age body)%Z ->
     Student_validate body = Raise (ValidationError "age")
     /\ post_students gw body w = (HttpError 422 "age", w))
  /\ ((10 <= body_age body <= 15)%Z ->
      exists student,
        Student_validate body = Ok student
        /\ Student.age student = body_age body
        /\ post_students gw body w = create_student gw student w
        /\ w_calls (snd (post_students gw body w))
           = (w_calls w ++ [CallCreate "student" (MStudent student)])%list).
Proof.
  unfold post_students, Student_validate. split; intros H.
  - replace ((10 <=? body_age body) && (body_age body <=? 15))%Z with false
      by (symmetry; apply andb_false_iff; lia).
    split; reflexivity.
  - replace ((10 <=? body_age body) && (body_age body <=? 15))%Z with true
      by (symmetry; apply andb_true_iff; lia).
    eexists. split; [reflexivity|]. split; [reflexivity|]. split; [reflexivity|].
    apply create_student_calls.
Qed.

(** C8 at the ages 9, 16 and 12. *)
Lemma student_age_checked_before_storage_witness :
  post_students working_gateway (student_body 9) fresh_world
  = (HttpError 422 "age", fresh_world)
  /\ post_students working_gateway (student_body 16) fresh_world
     = (HttpError 422 "age", fresh_world)
  /\ exists student,
       Student_validate (student_body 12) = Ok student
       /\ w_calls (snd (post_students working_gateway (student_body 12) fresh_world))
          = [CallCreate "student" (MStudent student)].
Proof.
  split; [|split].
  - apply (proj1 (student_age_checked_before_storage working_gateway
                    (student_body 9) fresh_world)).
    left. reflexivity.
  - apply (proj1 (student_age_checked_before_storage working_gateway
                    (student_body 16) fresh_world)).
    right. reflexivity.
  - destruct (proj2 (student_age_checked_before_storage working_gateway
                       (student_body 12) fresh_world))
      as (student & Hv & _ & _ & Hc).
    + split; discriminate.
    + exists student. split; [exact Hv|exact Hc].
Defined.

(** ** get_progress *)

(** C3, as the code has it: an exception of one of the three counts is
    answered with status 500 and the text of the exception; once the counts
    have succeeded, a read of the pronunciation attempts that raises is
    passed over: the answer is a 200 with the two counts and an average of
    0.  Whatever the read does, the answer is then such a 200, or the
    status 500 of a response that cannot be written because its average is
    not a finite float. *)
Theorem get_progress_failures {store : Type} (gw : Gateway store)
    (py_sum : list pynumber -> result pynumber) (student_id : string)
    (w : world store) :
  match gw_count_documents gw "activityresult" student_id (w_db w) with
  | (Raise e, _) =>
      fst (get_progress gw py_sum student_id w) = HttpError 500 (exn_str e)
  | (Ok vocab_growth, s1) =>
      match gw_count_documents gw "chatmessage" student_id s1 with
      | (Raise e, _) =>
          fst (get_progress gw py_sum student_id w) = HttpError 500 (exn_str e)
      | (Ok chats, s2) =>
          match gw_count_documents gw "pronunciationattempt" student_id s2 with
          | (Raise e, _) =>
              fst (get_progress gw py_sum student_id w) = HttpError 500 (exn_str e)
          | (Ok _, s3) =>
              (forall e s4,
                  gw_find gw "pronunciationattempt" student_id s3 = (Raise e, s4) ->
                  fst (get_progress gw py_sum student_id w)
                  = Http200 {| Progress.student_id := student_id;
                               Progress.vocabulary_growth := vocab_growth;
                               Progress.messages_exchanged := chats;
                               Progress.avg_pronunciation_similarity := 0 |})
              /\ ((exists avg,
                      fst (get_progress gw py_sum student_id w)
                      = Http200 {| Progress.student_id := student_id;
                                   Progress.vocabulary_growth := vocab_growth;
                                   Progress.messages_exchanged := chats;
                                   Progress.avg_pronunciation_similarity := avg |})
                  \/ fst (get_progress gw py_sum student_id w)
                     = HttpError 500 "Internal Server Error")
          end
      end
  end.
Proof.
  unfold get_progress, bind, count_documents.
  destruct (gw_count_documents gw "activityresult" student_id (w_db w))
    as [[vocab_growth|e] s1]; [|reflexivity].
  cbn [w_db w_calls].
  destruct (gw_count_documents gw "chatmessage" student_id s1)
    as [[chats|e] s2]; [|reflexivity].
  cbn [w_db w_calls].
  destruct (gw_count_documents gw "pronunciationattempt" student_id s2)
    as [[pronunciation|e] s3]; [|reflexivity].
  cbn [w_db w_calls].
  unfold average_similarity, bind, find. cbn [w_db w_calls].
  destruct (gw_find gw "pronunciationattempt" student_id s3) as [r s4] eqn:Hfind.
  unfold ret. split.
  - intros e s4' H. injection H as -> _.
    cbn [pyfloat_round]. rewrite py_round_0. reflexivity.
  - destruct (pyfloat_round _ 2) as [avg|negative|].
    + left. exists avg. reflexivity.
    + right. reflexivity.
    + right. reflexivity.
Qed.

(** C3 on a store whose second count raises: status 500. *)
Lemma get_progress_failures_witness :
  fst (get_progress failing_count_gateway left_to_right_sum "s1" fresh_world)
  = HttpError 500 "not authorized".
Proof.
  exact (get_progress_failures failing_count_gateway left_to_right_sum "s1" fresh_world).
Defined.

(** C3, against the claim as stated: the read of the pronunciation attempts
    raises, and the caller gets a 200 with an average of 0. *)
Lemma get_progress_swallows_find_failure :
  gw_find failing_find_gateway "pronunciationattempt" "s1" tt = (Raise find_failure, tt)
  /\ fst (get_progress failing_find_gateway left_to_right_sum "s1" fresh_world)
     = Http200 {| Progress.student_id := "s1";
                  Progress.vocabulary_growth := 2;
                  Progress.messages_exchanged := 2;
                  Progress.avg_pronunciation_similarity := 0 |}.
Proof. split; vm_compute; reflexivity. Qed.

(** * Further properties of the handlers *)

(** ** Rounding depends on the value only *)

Section RoundingValue.

Local Open Scope Z_scope.

Lemma div_half_even_scale (n d c : Z) :
  0 < d -> 0 < c -> div_half_even (n * c) (d * c) = div_half_even n d.
Proof.
  intros Hd Hc. unfold div_half_even.
  rewrite Z.div_mul_cancel_r by lia.
  rewrite Zmult_mod_distr_r.
  replace (2 * (n mod d * c)) with (2 * (n mod d) * c) by ring.
  rewrite <- (Zmult_compare_compat_r (2 * (n mod d)) d c) by lia.
  reflexivity.
Qed.

Lemma round_units_scale (n d c : Z) :
  0 < d -> 0 < c -> round_units (n * c) (d * c) = round_units n d.
Proof.
  intros Hd Hc. unfold round_units.
  rewrite Z.div_mul_cancel_r by lia.
  set (s := Z.max (Z.log2 (n / d) - 52) 0).
  assert (0 < 2 ^ s) by (apply Z.pow_pos_nonneg; lia).
  replace (d * c * 2 ^ s) with (d * 2 ^ s * c) by ring.
  rewrite div_half_even_scale by nia. reflexivity.
Qed.

Lemma round_units_cross (n1 d1 n2 d2 : Z) :
  0 < d1 -> 0 < d2 -> n1 * d2 = n2 * d1 -> round_units n1 d1 = round_units n2 d2.
Proof.
  intros H1 H2 E.
  rewrite <- (round_units_scale n1 d1 d2), <- (round_units_scale n2 d2 d1) by lia.
  rewrite E. f_equal. ring.
Qed.

End RoundingValue.

Lemma RN_wd (x y : Q) : (x == y)%Q -> RN x = RN y.
Proof.
  intros E. unfold RN.
  destruct x as [a b], y as [c d]. unfold Qeq in E. cbn [Qnum Qden] in *.
  assert (Hs : Z.sgn a = Z.sgn c).
  { destruct a, c; try reflexivity; exfalso; lia. }
  assert (Hu : round_units (Z.abs a * Z.pos unit_den) (Z.pos b)
               = round_units (Z.abs c * Z.pos unit_den) (Z.pos d)).
  { apply round_units_cross; [lia|lia|].
    assert (Ha : (Z.abs a * Z.pos d = Z.abs c * Z.pos b)%Z).
    { rewrite <- (Z.abs_eq (Z.pos d)), <- (Z.abs_eq (Z.pos b)) by lia.
      rewrite <- !Z.abs_mul. f_equal. exact E. }
    replace (Z.abs a * Z.pos unit_den * Z.pos d)%Z
      with (Z.abs a * Z.pos d * Z.pos unit_den)%Z by ring.
    rewrite Ha. ring. }
  rewrite Hs, Hu. reflexivity.
Qed.

Lemma RN_ratio_one (n : nat) : 1 <= n -> RN (Z.of_nat n # Pos.of_nat n) = 1%Q.
Proof.
  intros H. rewrite <- RN_1. apply RN_wd.
  unfold Qeq. cbn [Qnum Qden].
  rewrite <- (positive_nat_Z (Pos.of_nat n)), Nat2Pos.id by lia. lia.
Qed.

Lemma div_half_even_whole (k : Z) : div_half_even k 1 = k.
Proof.
  unfold div_half_even. rewrite Z.div_1_r, Z.mod_1_r. reflexivity.
Qed.

(** [round(x, ndigits)] of a float between 0 and [bound] is the float of a
    decimal [k / 10^ndigits] with [0 <= k <= bound * 10^ndigits]. *)
Lemma py_round_decimal (x : Q) (bound : Z) (ndigits : nat) :
  (0 <= x)%Q -> (x <= inject_Z bound)%Q ->
  exists k : Z,
    (0 <= k <= bound * Z.pos (pow10 ndigits))%Z
    /\ py_round x ndigits = literal k ndigits.
Proof.
  intros H0 Hb. unfold py_round, literal.
  destruct x as [a b]. unfold Qle in H0, Hb. cbn [Qnum Qden inject_Z] in *.
  rewrite Z.mul_1_r in H0. rewrite Z.mul_1_r in Hb.
  rewrite (Z.abs_eq a) by lia.
  set (p := pow10 ndigits).
  set (k := div_half_even (a * Z.pos p) (Z.pos b)).
  assert (Hk0 : (0 <= k)%Z).
  { pose proof (div_half_even_bounds (a * Z.pos p) (Z.pos b)) as B.
    assert (0 <= a * Z.pos p / Z.pos b)%Z by (apply Z.div_pos; lia). lia. }
  assert (Hk1 : (k <= bound * Z.pos p)%Z).
  { rewrite <- (div_half_even_whole (bound * Z.pos p)).
    apply div_half_even_mono; [lia|lia|]. nia. }
  exists k. split; [lia|].
  f_equal. f_equal.
  destruct (Z.eq_dec a 0%Z) as [->|NZ].
  - subst k. rewrite Z.mul_0_l. unfold div_half_even.
    rewrite Z.div_0_l, Zmod_0_l by lia. reflexivity.
  - rewrite Z.sgn_pos by lia. lia.
Qed.

(** ** pronunciation_feedback: extreme scores and what the score ignores *)

Lemma pronunciation_sim_ratio (target transcript : string) :
  token_set target <> ∅ ->
  exists n,
    size (token_set target ∪ token_set transcript) = S n
    /\ pronunciation_sim target transcript
       = Ok (RN (Z.of_nat (size (token_set target ∩ token_set transcript))
                 # Pos.of_nat (S n))).
Proof.
  intros NE. unfold pronunciation_sim.
  destruct (decide (token_set target = ∅)) as [E|_]; [contradiction|].
  destruct (size (token_set target ∪ token_set transcript)) as [|n] eqn:Hn.
  - exfalso. apply NE. apply size_empty_inv in Hn.
    apply leibniz_equiv. apply set_equiv. intros x. split.
    + intros Hx. apply (Hn x). apply elem_of_union. left. exact Hx.
    + intros Hx. apply not_elem_of_empty in Hx. contradiction.
  - exists n. split; reflexivity.
Qed.

Lemma sets_equal_of_sizes (a b : gset string) :
  size (a ∩ b) = size (a ∪ b) -> a = b.
Proof.
  intros H.
  assert (E : a ∩ b = a ∪ b).
  { apply set_subseteq_size_eq; [|rewrite H; reflexivity].
    intros x. rewrite elem_of_intersection, elem_of_union. tauto. }
  apply leibniz_equiv. apply set_equiv. intros x. split; intros Hx.
  - assert (Hu : x ∈ a ∪ b) by (apply elem_of_union; left; exact Hx).
    rewrite <- E in Hu. apply elem_of_intersection in Hu. tauto.
  - assert (Hu : x ∈ a ∪ b) by (apply elem_of_union; right; exact Hx).
    rewrite <- E in Hu. apply elem_of_intersection in Hu. tauto.
Qed.

Lemma Zpos_of_nat_S (n : nat) : Z.pos (Pos.of_nat (S n)) = Z.of_nat (S n).
Proof. rewrite <- (positive_nat_Z (Pos.of_nat (S n))), Nat2Pos.id by lia. reflexivity. Qed.

(** X1: for token sets of fewer than [2^53] tokens together, [sim] is 1.0
    exactly when the target has a token and the two token sets are the
    same; the response then carries 1.0 and the encouragement. *)
Theorem pronunciation_full_score_iff_same_tokens {store : Type} (gw : Gateway store)
    (payload : PronunciationRequest.t) (w : world store) :
  let a := token_set (PronunciationRequest.target payload) in
  let b := token_set (PronunciationRequest.transcript payload) in
  (Z.of_nat (size (a ∪ b)) < 2 ^ 53)%Z ->
  (pronunciation_sim (PronunciationRequest.target payload)
     (PronunciationRequest.transcript payload) = Ok 1%Q
   <-> a <> ∅ /\ a = b)
  /\ (a <> ∅ /\ a = b ->
      fst (pronunciation_feedback gw payload w)
      = Http200 {| PronunciationFeedback.similarity := 1;
                   PronunciationFeedback.advice := [advice_great] |}).
Proof.
  intros a b Hsize.
  assert (Hfwd : a <> ∅ /\ a = b ->
            pronunciation_sim (PronunciationRequest.target payload)
              (PronunciationRequest.transcript payload) = Ok 1%Q).
  { intros [NE E].
    destruct (pronunciation_sim_ratio _ (PronunciationRequest.transcript payload) NE)
      as (n & Hn & Hsim).
    rewrite Hsim. fold a b in Hn |- *. rewrite <- E in Hn |- *.
    rewrite (leibniz_equiv _ _ (union_idemp a)) in Hn.
    rewrite (leibniz_equiv _ _ (intersection_idemp a)), Hn.
    rewrite RN_ratio_one by lia. reflexivity. }
  split; [split; [|exact Hfwd]|].
  - intros H.
    destruct (decide (a = ∅)) as [E0|NE].
    + exfalso. unfold pronunciation_sim in H. fold a in H.
      destruct (decide (a = ∅)); [discriminate H|contradiction].
    + split; [exact NE|].
      destruct (pronunciation_sim_ratio _ (PronunciationRequest.transcript payload) NE)
        as (n & Hn & Hsim).
      fold a b in Hn, Hsim. rewrite Hsim in H. injection H as H.
      apply sets_equal_of_sizes.
      assert (Hle : size (a ∩ b) <= size (a ∪ b))
        by (apply subseteq_size; intros x; rewrite elem_of_intersection, elem_of_union;
            tauto).
      destruct (Nat.eq_dec (size (a ∩ b)) (size (a ∪ b))) as [Eq|Ne]; [exact Eq|].
      exfalso.
      assert (Hbelow : (RN (Z.of_nat (size (a ∩ b)) # Pos.of_nat (S n)) <= below_one)%Q).
      { replace below_one with (RN below_one) by (vm_compute; reflexivity).
        apply RN_mono.
        - unfold Qle. cbn [Qnum Qden]. lia.
        - unfold Qle, below_one. cbn [Qnum Qden]. rewrite Zpos_of_nat_S.
          rewrite Hn in *. lia. }
      rewrite H in Hbelow. revert Hbelow. vm_compute. intros C. apply C. reflexivity.
  - intros Hab. apply (pronunciation_feedback_response gw payload w 1%Q).
    apply Hfwd. exact Hab.
Qed.

(** X1 on a transcript that says the words of the target in another order. *)
Lemma pronunciation_full_score_iff_same_tokens_witness :
  fst (pronunciation_feedback working_gateway
         {| PronunciationRequest.student_id := None;
            PronunciationRequest.target := "the cat";
            PronunciationRequest.transcript := "Cat the" |} fresh_world)
  = Http200 {| PronunciationFeedback.similarity := 1;
               PronunciationFeedback.advice := [advice_great] |}.
Proof.
  apply (proj2 (pronunciation_full_score_iff_same_tokens working_gateway
                  {| PronunciationRequest.student_id := None;
                     PronunciationRequest.target := "the cat";
                     PronunciationRequest.transcript := "Cat the" |} fresh_world
                  ltac:(vm_compute; reflexivity))).
  split.
  - intros H. apply (f_equal size) in H. vm_compute in H. discriminate H.
  - vm_compute. reflexivity.
Defined.

(** X2: for token sets of fewer than [2^53] tokens together, [sim] is 0.0
    exactly when target and transcript share no token (an empty target or
    transcript included); the response then carries 0.0 and the two
    corrective tips. *)
Theorem pronunciation_zero_score_iff_no_common_token {store : Type}
    (gw : Gateway store) (payload : PronunciationRequest.t) (w : world store) :
  let a := token_set (PronunciationRequest.target payload) in
  let b := token_set (PronunciationRequest.transcript payload) in
  (Z.of_nat (size (a ∪ b)) < 2 ^ 53)%Z ->
  (pronunciation_sim (PronunciationRequest.target payload)
     (PronunciationRequest.transcript payload) = Ok 0%Q
   <-> a ∩ b = ∅)
  /\ (a ∩ b = ∅ ->
      fst (pronunciation_feedback gw payload w)
      = Http200 {| PronunciationFeedback.similarity := 0;
                   PronunciationFeedback.advice := [advice_slow; advice_endings] |}).
Proof.
  intros a b Hsize.
  assert (Hfwd : a ∩ b = ∅ ->
            pronunciation_sim (PronunciationRequest.target payload)
              (PronunciationRequest.transcript payload) = Ok 0%Q).
  { intros E. destruct (decide (a = ∅)) as [E0|NE].
    - unfold pronunciation_sim. fold a.
      destruct (decide (a = ∅)); [reflexivity|contradiction].
    - destruct (pronunciation_sim_ratio _ (PronunciationRequest.transcript payload) NE)
        as (n & Hn & Hsim).
      rewrite Hsim. fold a b. rewrite E, size_empty. cbn [Z.of_nat].
      rewrite RN_zero_num. reflexivity. }
  split; [split; [|exact Hfwd]|].
  - intros H. destruct (decide (a = ∅)) as [E0|NE].
    + rewrite E0. apply leibniz_equiv. apply set_equiv. intros x.
      rewrite elem_of_intersection. split; [tauto|].
      intros Hx. apply not_elem_of_empty in Hx. contradiction.
    + destruct (pronunciation_sim_ratio _ (PronunciationRequest.transcript payload) NE)
        as (n & Hn & Hsim).
      fold a b in Hn, Hsim. rewrite Hsim in H. injection H as H.
      destruct (size (a ∩ b)) as [|k] eqn:Hk.
      { apply leibniz_equiv. apply size_empty_inv. exact Hk. }
      exfalso.
      assert (Habove : ((1 # 2 ^ 53) <= RN (Z.of_nat (S k) # Pos.of_nat (S n)))%Q).
      { replace (1 # 2 ^ 53)%Q with (RN (1 # 2 ^ 53)) by (vm_compute; reflexivity).
        apply RN_mono; [discriminate|].
        unfold Qle. cbn [Qnum Qden]. rewrite Zpos_of_nat_S.
        rewrite Hn in Hsize. change (Z.pos (2 ^ 53)) with (2 ^ 53)%Z. lia. }
      rewrite H in Habove. revert Habove. vm_compute. intros C. apply C. reflexivity.
  - intros E. apply (pronunciation_feedback_response gw payload w 0%Q).
    apply Hfwd. exact E.
Qed.

(** X2 on two texts without tokens: the score is 0.0, not 1.0. *)
Lemma pronunciation_zero_score_iff_no_common_token_witness :
  fst (pronunciation_feedback working_gateway
         {| PronunciationRequest.student_id := None;
            PronunciationRequest.target := "";
            PronunciationRequest.transcript := "" |} fresh_world)
  = Http200 {| PronunciationFeedback.similarity := 0;
               PronunciationFeedback.advice := [advice_slow; advice_endings] |}.
Proof.
  apply (proj2 (pronunciation_zero_score_iff_no_common_token working_gateway
                  {| PronunciationRequest.student_id := None;
                     PronunciationRequest.target := "";
                     PronunciationRequest.transcript := "" |} fresh_world
                  ltac:(vm_compute; reflexivity))).
  vm_compute. reflexivity.
Defined.

Lemma lower_char_idem (c : ascii) :
  PyStr.lower_char (PyStr.lower_char c) = PyStr.lower_char c.
Proof. destruct c as [[] [] [] [] [] [] [] []]; reflexivity. Qed.

Lemma lower_idem (s : string) : PyStr.lower (PyStr.lower s) = PyStr.lower s.
Proof.
  induction s as [|c s IH]; [reflexivity|].
  cbn [PyStr.lower]. rewrite lower_char_idem, IH. reflexivity.
Qed.

Lemma lower_append (s t : string) :
  PyStr.lower (String.append s t) = String.append (PyStr.lower s) (PyStr.lower t).
Proof.
  induction s as [|c s IH]; [reflexivity|].
  rewrite append_cons. cbn [PyStr.lower]. rewrite append_cons, IH. reflexivity.
Qed.

Lemma split_from_append_space (tok s t : string) :
  PyStr.split_from tok (String.append s (String " " t))
  = (PyStr.split_from tok s ++ PyStr.split t)%list.
Proof.
  revert tok. induction s as [|c s IH]; intros tok.
  - change (String.append "" (String " " t)) with (String " " t).
    cbn [PyStr.split_from]. change (PyStr.isspace " ") with true. cbn match.
    destruct tok; reflexivity.
  - rewrite append_cons. cbn [PyStr.split_from].
    destruct (PyStr.isspace c).
    + destruct tok; rewrite IH; reflexivity.
    + apply IH.
Qed.

(** The tokens of two texts joined by a space are the tokens of both. *)
Lemma token_set_join (s t : string) :
  token_set (String.append s (String " " t)) = token_set s ∪ token_set t.
Proof.
  unfold token_set. rewrite lower_append.
  change (PyStr.lower (String " " t)) with (String " " (PyStr.lower t)).
  unfold PyStr.split at 1. rewrite split_from_append_space.
  apply list_to_set_app_L.
Qed.

Lemma token_set_lower (s : string) : token_set (PyStr.lower s) = token_set s.
Proof. unfold token_set. rewrite lower_idem. reflexivity. Qed.

Lemma pronunciation_feedback_by_tokens {store : Type} (gw : Gateway store)
    (p1 p2 : PronunciationRequest.t) (w : world store) :
  token_set (PronunciationRequest.target p1) = token_set (PronunciationRequest.target p2) ->
  token_set (PronunciationRequest.transcript p1)
  = token_set (PronunciationRequest.transcript p2) ->
  fst (pronunciation_feedback gw p1 w) = fst (pronunciation_feedback gw p2 w).
Proof.
  intros Ht Hs.
  pose proof (pronunciation_sim_spec (PronunciationRequest.target p1)
                (PronunciationRequest.transcript p1)) as H1.
  assert (H2 : pronunciation_sim (PronunciationRequest.target p2)
                 (PronunciationRequest.transcript p2)
               = Ok (RN (spec_jaccard (PronunciationRequest.target p1)
                           (PronunciationRequest.transcript p1)))).
  { rewrite <- H1. unfold pronunciation_sim. rewrite Ht, Hs. reflexivity. }
  rewrite (pronunciation_feedback_response gw p1 w _ H1).
  rewrite (pronunciation_feedback_response gw p2 w _ H2).
  reflexivity.
Qed.

(** X3: the response of [pronunciation_feedback] ignores the letter case of
    both texts, the order of the words of the transcript, and words said
    twice. *)
Theorem pronunciation_ignores_case_order_repeats {store : Type} (gw : Gateway store)
    (student_id : option string) (target said more : string) (w : world store) :
  let respond := fun t s =>
    fst (pronunciation_feedback gw
           {| PronunciationRequest.student_id := student_id;
              PronunciationRequest.target := t;
              PronunciationRequest.transcript := s |} w) in
  respond (PyStr.lower target) said = respond target said
  /\ respond target (PyStr.lower said) = respond target said
  /\ respond target (String.append said (String " " more))
     = respond target (String.append more (String " " said))
  /\ respond target (String.append said (String " " said)) = respond target said.
Proof.
  intros respond. subst respond. cbv beta.
  repeat split; apply pronunciation_feedback_by_tokens;
    cbn [PronunciationRequest.target PronunciationRequest.transcript];
    try reflexivity.
  - apply token_set_lower.
  - apply token_set_lower.
  - rewrite !token_set_join. apply union_comm_L.
  - rewrite token_set_join. apply union_idemp_L.
Qed.

(** X4: the similarity of the response is one of the floats 0.00, 0.01,
    ..., 1.00. *)
Theorem pronunciation_response_two_decimals {store : Type} (gw : Gateway store)
    (payload : PronunciationRequest.t) (w : world store) :
  exists (body : PronunciationFeedback.t) (k : Z),
    fst (pronunciation_feedback gw payload w) = Http200 body
    /\ (0 <= k <= 100)%Z
    /\ PronunciationFeedback.similarity body = literal k 2
    /\ (0 <= PronunciationFeedback.similarity body <= 1)%Q.
Proof.
  pose proof (pronunciation_sim_spec (PronunciationRequest.target payload)
                (PronunciationRequest.transcript payload)) as Hsim.
  destruct (spec_jaccard_bounds (PronunciationRequest.target payload)
              (PronunciationRequest.transcript payload)) as [J0 J1].
  set (sim := RN (spec_jaccard (PronunciationRequest.target payload)
                    (PronunciationRequest.transcript payload))) in *.
  assert (S0 : (0 <= sim)%Q) by (apply RN_nonneg; exact J0).
  assert (S1 : (sim <= inject_Z 1)%Q)
    by (change (inject_Z 1) with 1%Q; rewrite <- RN_1; apply RN_mono; assumption).
  destruct (py_round_decimal sim 1 2 S0 S1) as (k & Hk & Hround).
  change (Z.pos (pow10 2)) with 100%Z in Hk.
  eexists. exists k.
  split; [apply (pronunciation_feedback_response gw payload w sim Hsim)|].
  cbn [PronunciationFeedback.similarity]. split; [lia|]. split; [exact Hround|].
  rewrite Hround. unfold literal. split.
  - apply RN_nonneg. unfold Qle. cbn [Qnum Qden]. lia.
  - rewrite <- RN_1. apply RN_mono.
    + unfold Qle. cbn [Qnum Qden]. lia.
    + unfold Qle. cbn [Qnum Qden]. change (Z.pos (pow10 2)) with 100%Z. lia.
Qed.

(** X5: [pronunciation_feedback] makes exactly one call to the store,
    whatever its outcome: the write of an attempt that holds the two texts
    as they were sent and the similarity before rounding. *)
Theorem pronunciation_feedback_writes_once {store : Type} (gw : Gateway store)
    (payload : PronunciationRequest.t) (w : world store) :
  exists sim,
    pronunciation_sim (PronunciationRequest.target payload)
      (PronunciationRequest.transcript payload) = Ok sim
    /\ w_calls (snd (pronunciation_feedback gw payload w))
       = (w_calls w
          ++ [CallCreate "pronunciationattempt"
                (MPronunciationAttempt
                   {| PronunciationAttempt.student_id :=
                        PronunciationRequest.student_id payload;
                      PronunciationAttempt.target := PronunciationRequest.target payload;
                      PronunciationAttempt.transcript :=
                        PronunciationRequest.transcript payload;
                      PronunciationAttempt.similarity := Some sim;
                      PronunciationAttempt.created_at := None |})])%list.
Proof.
  pose proof (pronunciation_sim_spec (PronunciationRequest.target payload)
                (PronunciationRequest.transcript payload)) as Hsim.
  eexists. split; [exact Hsim|].
  unfold pronunciation_feedback. rewrite Hsim. unfold bind, create_document.
  destruct (gw_create_document gw _ _ (w_db w)) as [r s]. reflexivity.
Qed.

(** ** submit_activity: which answers count, extreme scores, bands *)

(** X6: an answer counts as given unless its string form consists of
    whitespace only; in particular [null] and the booleans count. *)
Theorem answered_unless_blank (v : pyvalue) :
  (answered v = negb (blank (py_str v)))
  /\ answered PNone = true
  /\ (forall b, answered (PBool b) = true)
  /\ (forall s, answered (PStr s) = negb (blank s)).
Proof.
  assert (H : forall u, answered u = negb (blank (py_str u))).
  { intros u. unfold answered.
    destruct (blank (py_str u)) eqn:B.
    - apply strip_empty_iff_blank in B. rewrite B. reflexivity.
    - destruct (PyStr.strip (py_str u)) eqn:E; [|reflexivity].
      apply strip_empty_iff_blank in E. rewrite E in B. discriminate B. }
  split; [apply H|]. split; [reflexivity|]. split.
  - intros []; reflexivity.
  - intros s. apply (H (PStr s)).
Qed.

Lemma percent_below_iff (x thr below T : Q) :
  (0 <= x)%Q -> (0 <= thr)%Q -> RN below = below ->
  (float_mul below 100 < T)%Q -> (T <= float_mul (RN thr) 100)%Q ->
  ((x < thr)%Q -> (x <= below)%Q) ->
  (float_mul (RN x) 100 < T)%Q <-> (x < thr)%Q.
Proof.
  intros Hx Hthr Hb Hlow Hhigh Hgap. split; intros H.
  - apply Qnot_le_lt. intros C. apply (Qlt_not_le _ _ H).
    eapply Qle_trans; [exact Hhigh|]. apply percent_mono; assumption.
  - eapply Qle_lt_trans; [|exact Hlow].
    rewrite <- Hb. apply percent_mono; [exact Hx|]. apply Hgap. exact H.
Qed.

Lemma completeness_parts (answers : gmap string pyvalue) :
  exists k n : Z,
    (0 <= k <= n)%Z /\ (1 <= n)%Z
    /\ k = Z.of_nat (activity_non_empty answers)
    /\ n = Z.of_nat (Nat.max (size answers) 1)
    /\ Qnum (spec_completeness answers) = k
    /\ Z.pos (Qden (spec_completeness answers)) = n.
Proof.
  pose proof (spec_answered_count_le answers) as Hle.
  exists (Z.of_nat (spec_answered_count answers)), (Z.of_nat (Nat.max (size answers) 1)).
  rewrite activity_non_empty_spec.
  unfold spec_completeness. cbn [Qnum Qden]. rewrite Zpos_of_nat_max.
  repeat split; lia.
Qed.

(** X7: for fewer than [2^48] answers, rounding never moves a submission
    into another band: the feedback is the review string exactly when the
    exact percentage of non-empty answers is below 60, the excellent string
    exactly when it is at least 85, and the nice-work string in between. *)
Theorem activity_bands_follow_exact_percentage (answers : gmap string pyvalue) :
  (Z.of_nat (size answers) < 2 ^ 48)%Z ->
  exists score,
    activity_score answers = Ok score
    /\ (activity_feedback score = [feedback_review]
        <-> (spec_completeness answers * 100 < 60)%Q)
    /\ (activity_feedback score = [feedback_nice]
        <-> (60 <= spec_completeness answers * 100)%Q
            /\ (spec_completeness answers * 100 < 85)%Q)
    /\ (activity_feedback score = [feedback_excellent]
        <-> (85 <= spec_completeness answers * 100)%Q).
Proof.
  intros Hsize.
  destruct (spec_completeness_bounds answers) as [H0 H1].
  destruct (completeness_parts answers) as (k & n & Hkn & Hn1 & _ & Hn & Hnum & Hden).
  assert (Hn48 : (n < 2 ^ 48)%Z) by lia.
  set (c := spec_completeness answers) in *.
  assert (L60 : (float_mul (RN c) 100 < 60)%Q <-> (c < 6 # 10)%Q).
  { apply (percent_below_iff c (6 # 10) below_sim_threshold 60 H0).
    - discriminate.
    - vm_compute. reflexivity.
    - vm_compute. reflexivity.
    - vm_compute. discriminate.
    - unfold Qlt, Qle, below_sim_threshold. cbn [Qnum Qden].
      rewrite Hnum, Hden. lia. }
  assert (L85 : (float_mul (RN c) 100 < 85)%Q <-> (c < 85 # 100)%Q).
  { apply (percent_below_iff c (85 # 100) below_085 85 H0).
    - discriminate.
    - vm_compute. reflexivity.
    - vm_compute. reflexivity.
    - vm_compute. discriminate.
    - unfold Qlt, Qle, below_085. cbn [Qnum Qden].
      rewrite Hnum, Hden. lia. }
  assert (E60 : (c * 100 < 60)%Q <-> (c < 6 # 10)%Q).
  { unfold Qlt. cbn [Qnum Qden Qmult]. rewrite Hnum.
    rewrite !Pos2Z.inj_mul, Hden. lia. }
  assert (E85 : (c * 100 < 85)%Q <-> (c < 85 # 100)%Q).
  { unfold Qlt. cbn [Qnum Qden Qmult]. rewrite Hnum.
    rewrite !Pos2Z.inj_mul, Hden. lia. }
  exists (float_mul (RN c) 100). split; [apply activity_score_spec|].
  set (score := float_mul (RN c) 100) in *.
  assert (N60 : (60 <= c * 100)%Q <-> (60 <= score)%Q).
  { split; intros H; apply Qnot_lt_le; intros C; apply (Qle_not_lt _ _ H); tauto. }
  assert (N85 : (85 <= c * 100)%Q <-> (85 <= score)%Q).
  { split; intros H; apply Qnot_lt_le; intros C; apply (Qle_not_lt _ _ H); tauto. }
  destruct (activity_feedback_cases score)
    as [[A ->]|[(A & B & ->)|[A ->]]].
  - split; [|split].
    + split; [intros _; tauto|reflexivity].
    + split; [discriminate|]. intros [C _]. exfalso.
      apply N60 in C. apply (Qlt_not_le _ _ A C).
    + split; [discriminate|]. intros C. exfalso. apply N85 in C.
      apply (Qlt_not_le _ _ A). eapply Qle_trans; [|exact C]. discriminate.
  - split; [|split].
    + split; [discriminate|]. intros C. exfalso.
      apply (Qlt_not_le score 60); tauto.
    + split; [intros _; tauto|reflexivity].
    + split; [discriminate|]. intros C. exfalso. apply N85 in C.
      apply (Qlt_not_le _ _ B C).
  - split; [|split].
    + split; [discriminate|]. intros C. exfalso.
      assert (C' : (score < 60)%Q) by tauto.
      apply (Qlt_not_le _ _ C'). eapply Qle_trans; [|exact A]. discriminate.
    + split; [discriminate|]. intros [_ C]. exfalso.
      assert (C' : (score < 85)%Q) by tauto. apply (Qlt_not_le _ _ C' A).
    + split; [intros _; tauto|reflexivity].
Qed.

(** X7 on the answers q1: blue, q2: empty, q3: cat (two of three). *)
Lemma activity_bands_follow_exact_percentage_witness :
  exists score,
    activity_score example_answers = Ok score
    /\ (activity_feedback score = [feedback_nice]
        <-> (60 <= spec_completeness example_answers * 100)%Q
            /\ (spec_completeness example_answers * 100 < 85)%Q).
Proof.
  destruct (activity_bands_follow_exact_percentage example_answers
              ltac:(vm_compute; reflexivity)) as (score & Hs & _ & Hnice & _).
  exists score. split; [exact Hs|exact Hnice].
Defined.

(** X8: for fewer than [2^53] answers, the score is 0 exactly when no
    answer is non-empty (no answers at all included) and 100 exactly when
    there is an answer and every answer is non-empty; the response then
    carries 0.0 with the review feedback, or 100.0 with the excellent
    feedback. *)
Theorem activity_extreme_scores {store : Type} (gw : Gateway store)
    (payload : ActivitySubmission.t) (w : world store) :
  let answers := ActivitySubmission.answers payload in
  (Z.of_nat (size answers) < 2 ^ 53)%Z ->
  (exists score,
      activity_score answers = Ok score
      /\ ((score == 0)%Q <-> activity_non_empty answers = 0)
      /\ ((score == 100)%Q
          <-> activity_non_empty answers = size answers /\ 1 <= size answers))
  /\ (activity_non_empty answers = 0 ->
      fst (submit_activity gw payload w)
      = Http200 {| ActivityFeedback.score := 0;
                   ActivityFeedback.feedback := [feedback_review] |})
  /\ (activity_non_empty answers = size answers /\ 1 <= size answers ->
      fst (submit_activity gw payload w)
      = Http200 {| ActivityFeedback.score := 100;
                   ActivityFeedback.feedback := [feedback_excellent] |}).
Proof.
  intros answers Hsize.
  destruct (spec_completeness_bounds answers) as [H0 H1].
  destruct (completeness_parts answers) as (k & n & Hkn & Hn1 & Hk & Hn & Hnum & Hden).
  pose proof (activity_score_spec answers) as Hscore.
  pose proof (spec_answered_count_le answers) as Hle.
  rewrite <- activity_non_empty_spec in Hle.
  assert (Z0 : activity_non_empty answers = 0 ->
               float_mul (RN (spec_completeness answers)) 100 = 0%Q).
  { intros E. unfold spec_completeness. rewrite <- activity_non_empty_spec, E.
    cbn [Z.of_nat]. rewrite RN_zero_num. vm_compute. reflexivity. }
  assert (Z100 : activity_non_empty answers = size answers /\ 1 <= size answers ->
                 float_mul (RN (spec_completeness answers)) 100 = 100%Q).
  { intros [E Hpos]. unfold spec_completeness. rewrite <- activity_non_empty_spec, E.
    replace (Nat.max (size answers) 1) with (size answers) by lia.
    rewrite RN_ratio_one by lia. vm_compute. reflexivity. }
  split; [|split].
  - eexists. split; [exact Hscore|]. split; split.
    + intros E. destruct (Nat.eq_dec (activity_non_empty answers) 0) as [|NZ];
        [assumption|exfalso].
      assert (L : (float_mul (RN (1 # 2 ^ 53)) 100
                   <= float_mul (RN (spec_completeness answers)) 100)%Q).
      { apply percent_mono; [discriminate|].
        unfold Qle. cbn [Qnum Qden]. rewrite Hnum, Hden.
        change (Z.pos (2 ^ 53)) with (2 ^ 53)%Z. lia. }
      assert (C : (float_mul (RN (1 # 2 ^ 53)) 100 <= 0)%Q).
      { eapply Qle_trans; [exact L|]. apply Qle_lteq. right. exact E. }
      revert C. vm_compute. intros C. apply C. reflexivity.
    + intros E. rewrite (Z0 E). reflexivity.
    + intros E.
      destruct (Nat.eq_dec (activity_non_empty answers) (size answers)) as [Eq|Ne].
      * split; [exact Eq|].
        destruct (size answers) as [|m] eqn:Hm; [|lia]. exfalso.
        rewrite (Z0 Eq) in E. discriminate E.
      * exfalso.
        assert (L : (float_mul (RN (spec_completeness answers)) 100
                     <= float_mul (RN below_one) 100)%Q).
        { apply percent_mono; [exact H0|].
          unfold Qle, below_one. cbn [Qnum Qden]. rewrite Hnum, Hden. lia. }
        assert (C : (100 <= float_mul (RN below_one) 100)%Q).
        { eapply Qle_trans; [|exact L]. apply Qle_lteq. right. symmetry. exact E. }
        revert C. vm_compute. intros C. apply C. reflexivity.
    + intros E. rewrite (Z100 E). reflexivity.
  - intros E. rewrite (Z0 E) in Hscore.
    rewrite (submit_activity_response gw payload w _ Hscore).
    vm_compute. reflexivity.
  - intros E. rewrite (Z100 E) in Hscore.
    rewrite (submit_activity_response gw payload w _ Hscore).
    vm_compute. reflexivity.
Qed.

(** X8 on a submission without answers: score 0.0 and the review feedback. *)
Lemma activity_extreme_scores_witness :
  fst (submit_activity working_gateway
         {| ActivitySubmission.student_id := "s1";
            ActivitySubmission.lesson_id := "l1";
            ActivitySubmission.activity_id := "a1";
            ActivitySubmission.answers := ∅ |} fresh_world)
  = Http200 {| ActivityFeedback.score := 0;
               ActivityFeedback.feedback := [feedback_review] |}.
Proof.
  pose proof (activity_extreme_scores working_gateway
                {| ActivitySubmission.student_id := "s1";
                   ActivitySubmission.lesson_id := "l1";
                   ActivitySubmission.activity_id := "a1";
                   ActivitySubmission.answers := ∅ |} fresh_world) as H.
  cbv zeta in H. destruct H as (_ & H & _).
  - vm_compute. reflexivity.
  - apply H. reflexivity.
Defined.

(** X9: the score of the response is one of the floats 0.0, 0.1, ...,
    100.0. *)
Theorem activity_response_one_decimal {store : Type} (gw : Gateway store)
    (payload : ActivitySubmission.t) (w : world store) :
  exists (body : ActivityFeedback.t) (k : Z),
    fst (submit_activity gw payload w) = Http200 body
    /\ (0 <= k <= 1000)%Z
    /\ ActivityFeedback.score body = literal k 1
    /\ (0 <= ActivityFeedback.score body <= 100)%Q.
Proof.
  destruct (activity_score_bounds (ActivitySubmission.answers payload))
    as (score & Hscore & S0 & S1).
  destruct (py_round_decimal score 100 1 S0 S1) as (k & Hk & Hround).
  change (Z.pos (pow10 1)) with 10%Z in Hk.
  eexists. exists k.
  split; [apply (submit_activity_response gw payload w score Hscore)|].
  cbn [ActivityFeedback.score]. split; [lia|]. split; [exact Hround|].
  rewrite Hround. unfold literal. split.
  - apply RN_nonneg. unfold Qle. cbn [Qnum Qden]. lia.
  - rewrite <- RN_100. apply RN_mono.
    + unfold Qle. cbn [Qnum Qden]. lia.
    + unfold Qle. cbn [Qnum Qden]. change (Z.pos (pow10 1)) with 10%Z. lia.
Qed.

(** ** tutor_chat: writes, padding, and what the agreement check flags *)

(** X10: the three tutoring handlers answer 200 with a body that does not
    depend on the store: whatever the gateway does, and in whatever state,
    the response is the same. *)
Theorem best_effort_responses_ignore_store {store1 store2 : Type}
    (gw1 : Gateway store1) (gw2 : Gateway store2)
    (w1 : world store1) (w2 : world store2) :
  (forall payload : TutorRequest.t,
      fst (tutor_chat gw1 payload w1) = fst (tutor_chat gw2 payload w2)
      /\ exists body, fst (tutor_chat gw1 payload w1) = Http200 body)
  /\ (forall payload : PronunciationRequest.t,
         fst (pronunciation_feedback gw1 payload w1)
         = fst (pronunciation_feedback gw2 payload w2)
         /\ exists body, fst (pronunciation_feedback gw1 payload w1) = Http200 body)
  /\ (forall payload : ActivitySubmission.t,
         fst (submit_activity gw1 payload w1) = fst (submit_activity gw2 payload w2)
         /\ exists body, fst (submit_activity gw1 payload w1) = Http200 body).
Proof.
  split; [|split]; intros payload.
  - rewrite !tutor_chat_response. split; [reflexivity|eexists; reflexivity].
  - pose proof (pronunciation_sim_spec (PronunciationRequest.target payload)
                  (PronunciationRequest.transcript payload)) as H.
    rewrite (pronunciation_feedback_response gw1 payload w1 _ H).
    rewrite (pronunciation_feedback_response gw2 payload w2 _ H).
    split; [reflexivity|eexists; reflexivity].
  - pose proof (activity_score_spec (ActivitySubmission.answers payload)) as H.
    rewrite (submit_activity_response gw1 payload w1 _ H).
    rewrite (submit_activity_response gw2 payload w2 _ H).
    split; [reflexivity|eexists; reflexivity].
Qed.

(** X11: [tutor_chat] first writes the user's message, stripped, with the
    grammar notes as its corrections; it writes the tutor's reply, with no
    corrections, only when that first write succeeded.  A failed first
    write is the only call made. *)
Theorem tutor_chat_writes {store : Type} (gw : Gateway store)
    (payload : TutorRequest.t) (w : world store) :
  let user_text := PyStr.strip (TutorRequest.message payload) in
  let user_message :=
    MChatMessage
      {| ChatMessage.student_id := TutorRequest.student_id payload;
         ChatMessage.role := "user";
         ChatMessage.text := user_text;
         ChatMessage.corrections := Some (tutor_chat_grammar user_text);
         ChatMessage.created_at := None |} in
  let tutor_message :=
    MChatMessage
      {| ChatMessage.student_id := TutorRequest.student_id payload;
         ChatMessage.role := "tutor";
         ChatMessage.text := tutor_chat_reply user_text;
         ChatMessage.corrections := Some [];
         ChatMessage.created_at := None |} in
  match gw_create_document gw "chatmessage" user_message (w_db w) with
  | (Ok _, s) =>
      w_calls (snd (tutor_chat gw payload w))
      = (w_calls w ++ [CallCreate "chatmessage" user_message;
                       CallCreate "chatmessage" tutor_message])%list
      /\ w_db (snd (tutor_chat gw payload w))
         = snd (gw_create_document gw "chatmessage" tutor_message s)
  | (Raise _, s) =>
      snd (tutor_chat gw payload w)
      = World s (w_calls w ++ [CallCreate "chatmessage" user_message])%list
  end.
Proof.
  intros user_text user_message tutor_message.
  unfold tutor_chat, bind, create_document.
  fold user_text. unfold ChatMessage_new. fold user_message. fold tutor_message.
  destruct (gw_create_document gw "chatmessage" user_message (w_db w)) as [[i|e] s].
  - cbn [w_db w_calls].
    destruct (gw_create_document gw "chatmessage" tutor_message s) as [r s'].
    cbn [snd w_calls w_db ret]. unfold append. rewrite <- app_assoc.
    split; reflexivity.
  - reflexivity.
Qed.

Lemma rstrip_blank (s : string) : blank s = true -> PyStr.rstrip s = "".
Proof.
  induction s as [|c s IH]; [reflexivity|].
  cbn [blank PyStr.rstrip]. destruct (PyStr.isspace c); [|discriminate].
  intros B. rewrite (IH B). reflexivity.
Qed.

Lemma lstrip_append_blank (p s : string) :
  blank p = true -> PyStr.lstrip (String.append p s) = PyStr.lstrip s.
Proof.
  induction p as [|c p IH]; [reflexivity|].
  cbn [blank]. rewrite append_cons. cbn [PyStr.lstrip].
  destruct (PyStr.isspace c); [exact IH|discriminate].
Qed.

Lemma rstrip_append_blank (s q : string) :
  blank q = true -> PyStr.rstrip (String.append s q) = PyStr.rstrip s.
Proof.
  intros B. induction s as [|c s IH].
  - change (String.append "" q) with q. rewrite (rstrip_blank q B). reflexivity.
  - rewrite append_cons. cbn [PyStr.rstrip]. rewrite IH. reflexivity.
Qed.

Lemma blank_append (s q : string) :
  blank s = true -> blank q = true -> blank (String.append s q) = true.
Proof.
  intros Bs Bq. induction s as [|c s IH]; [exact Bq|].
  rewrite append_cons. cbn [blank] in *.
  destruct (PyStr.isspace c); [apply IH; exact Bs|discriminate].
Qed.

Lemma lstrip_append_not_blank (s q : string) :
  blank s = false ->
  PyStr.lstrip (String.append s q) = String.append (PyStr.lstrip s) q.
Proof.
  induction s as [|c s IH]; [discriminate|].
  cbn [blank]. rewrite append_cons. cbn [PyStr.lstrip].
  destruct (PyStr.isspace c); [exact IH|]. intros _. rewrite append_cons. reflexivity.
Qed.

Lemma strip_padding (p s q : string) :
  blank p = true -> blank q = true ->
  PyStr.strip (String.append p (String.append s q)) = PyStr.strip s.
Proof.
  intros Bp Bq. unfold PyStr.strip. rewrite (lstrip_append_blank p _ Bp).
  destruct (blank s) eqn:Bs.
  - rewrite (lstrip_blank _ (blank_append s q Bs Bq)), (lstrip_blank s Bs). reflexivity.
  - rewrite (lstrip_append_not_blank s q Bs). apply rstrip_append_blank. exact Bq.
Qed.

(** X12: whitespace before and after the message changes nothing in the
    response of [tutor_chat]. *)
Theorem tutor_chat_ignores_padding {store : Type} (gw : Gateway store)
    (student_id : option string) (before message after : string) (w : world store) :
  blank before = true -> blank after = true ->
  fst (tutor_chat gw
         {| TutorRequest.student_id := student_id;
            TutorRequest.message :=
              String.append before (String.append message after) |} w)
  = fst (tutor_chat gw
           {| TutorRequest.student_id := student_id;
              TutorRequest.message := message |} w).
Proof.
  intros Bb Ba. rewrite !tutor_chat_response.
  cbn [TutorRequest.message]. rewrite (strip_padding before message after Bb Ba).
  reflexivity.
Qed.

(** X12 on a message with a tab before it and a line break after it. *)
Lemma tutor_chat_ignores_padding_witness :
  fst (tutor_chat working_gateway
         {| TutorRequest.student_id := None;
            TutorRequest.message :=
              String.append (String "009" " ")
                (String.append "I like school." (String "010" "")) |} fresh_world)
  = fst (tutor_chat working_gateway
           {| TutorRequest.student_id := None;
              TutorRequest.message := "I like school." |} fresh_world).
Proof.
  apply (tutor_chat_ignores_padding working_gateway None
           (String "009" " ") "I like school." (String "010" "") fresh_world).
  - reflexivity.
  - reflexivity.
Defined.

Lemma prefix_empty (s : string) : String.prefix "" s = true.
Proof. destruct s; reflexivity. Qed.

Lemma prefix_cons (a b : ascii) (s t : string) :
  String.prefix (String a s) (String b t) = true <-> a = b /\ String.prefix s t = true.
Proof.
  cbn [String.prefix]. destruct (ascii_dec a b) as [E|N].
  - split; [intros H; split; assumption|intros [_ H]; exact H].
  - split; [discriminate|intros [E _]; contradiction].
Qed.

Lemma prefix_trans (a b c : string) :
  String.prefix a b = true -> String.prefix b c = true -> String.prefix a c = true.
Proof.
  revert a b. induction c as [|z c IH]; intros a b Hab Hbc.
  - destruct b; [|discriminate Hbc]. destruct a; [reflexivity|discriminate Hab].
  - destruct a as [|x a]; [reflexivity|].
    destruct b as [|y b]; [discriminate Hab|].
    apply prefix_cons in Hab. apply prefix_cons in Hbc. apply prefix_cons.
    destruct Hab as [-> Hab], Hbc as [-> Hbc]. split; [reflexivity|].
    apply (IH a b); assumption.
Qed.

Lemma contains_tail (a : string) (z : ascii) (c : string) :
  PyStr.contains a c = true -> PyStr.contains a (String z c) = true.
Proof.
  intros H. cbn [PyStr.contains]. rewrite H. apply orb_true_r.
Qed.

Lemma contains_prefix (a b c : string) :
  PyStr.contains a b = true -> String.prefix b c = true -> PyStr.contains a c = true.
Proof.
  revert c. induction b as [|y b IH]; intros c Hab Hbc.
  - cbn [PyStr.contains] in Hab. rewrite orb_false_r in Hab.
    destruct a; [|discriminate Hab].
    destruct c; cbn [PyStr.contains]; rewrite prefix_empty; reflexivity.
  - cbn [PyStr.contains] in Hab. apply orb_true_iff in Hab.
    destruct Hab as [Hp|Hc].
    + pose proof (prefix_trans a (String y b) c Hp Hbc) as H.
      destruct c; cbn [PyStr.contains]; rewrite H; reflexivity.
    + destruct c as [|z c]; [discriminate Hbc|].
      apply prefix_cons in Hbc. destruct Hbc as [_ Hbc].
      apply contains_tail. apply IH; assumption.
Qed.

Lemma contains_trans (a b c : string) :
  PyStr.contains a b = true -> PyStr.contains b c = true -> PyStr.contains a c = true.
Proof.
  intros Hab. induction c as [|z c IH]; intros Hbc.
  - cbn [PyStr.contains] in Hbc. rewrite orb_false_r in Hbc.
    apply (contains_prefix a b ""); assumption.
  - cbn [PyStr.contains] in Hbc. apply orb_true_iff in Hbc.
    destruct Hbc as [Hp|Hc].
    + apply (contains_prefix a b); assumption.
    + apply contains_tail. apply IH. exact Hc.
Qed.

Lemma has_bad_phrase_containing (inner outer : string) :
  PyStr.contains (PyStr.lower inner) (PyStr.lower outer) = true ->
  has_bad_phrase inner = true -> has_bad_phrase outer = true.
Proof.
  intros Hc Hi. unfold has_bad_phrase in *.
  apply existsb_exists in Hi. destruct Hi as (word & Hin & Hw).
  apply existsb_exists. exists word. split; [exact Hin|].
  apply (contains_trans word (PyStr.lower inner)); assumption.
Qed.

(** X13: the agreement check is a substring match, so a text that
    contains a flagged text is flagged; the pattern [he go] flags every
    message that contains [he goes] or [she goes], the form the tip itself
    recommends. *)
Theorem agreement_tip_flags_correct_forms {store : Type} (gw : Gateway store) :
  (forall inner outer : string,
      PyStr.contains (PyStr.lower inner) (PyStr.lower outer) = true ->
      has_bad_phrase inner = true -> has_bad_phrase outer = true)
  /\ (forall (payload : TutorRequest.t) (w : world store),
         PyStr.contains "he goes"
           (PyStr.lower (PyStr.strip (TutorRequest.message payload))) = true ->
         exists body,
           fst (tutor_chat gw payload w) = Http200 body
           /\ In tip_agreement (TutorResponse.grammar_notes body))
  /\ PyStr.contains "he goes" "she goes" = true
  /\ PyStr.contains "she goes" (PyStr.lower tip_agreement) = true.
Proof.
  split; [exact has_bad_phrase_containing|]. split; [|split; reflexivity].
  intros payload w H. eexists. split; [apply tutor_chat_response|].
  cbn [TutorResponse.grammar_notes]. apply tutor_chat_grammar_tips.
  apply (has_bad_phrase_containing "he goes"); [exact H|reflexivity].
Qed.

(** X13 on a correct sentence. *)
Lemma agreement_tip_flags_correct_forms_witness :
  exists body,
    fst (tutor_chat working_gateway
           {| TutorRequest.student_id := None;
              TutorRequest.message := "She goes to school." |} fresh_world)
    = Http200 body
    /\ In tip_agreement (TutorResponse.grammar_notes body).
Proof.
  apply (proj1 (proj2 (agreement_tip_flags_correct_forms working_gateway))).
  reflexivity.
Defined.

(** ** create_student and list_students *)

(** X14: a body with an age in [10,15] is written once, with the level A2
    when the body gives none; the answer is the identifier the store
    returns, or status 500 with the text of the exception the store
    raises. *)
Theorem registration_outcome {store : Type} (gw : Gateway store)
    (body : StudentBody) (w : world store) :
  (10 <= body_age body <= 15)%Z ->
  let student :=
    {| Student.name := body_name body;
       Student.age := body_age body;
       Student.level := match body_level body with Some l => l | None => "A2" end;
       Student.guardian_email := body_guardian_email body;
       Student.created_at := body_created_at body |} in
  match gw_create_document gw "student" (MStudent student) (w_db w) with
  | (Ok id, s) =>
      post_students gw body w
      = (Http200 id, World s (w_calls w ++ [CallCreate "student" (MStudent student)])%list)
  | (Raise e, s) =>
      post_students gw body w
      = (HttpError 500 (exn_message e),
         World s (w_calls w ++ [CallCreate "student" (MStudent student)])%list)
  end.
Proof.
  intros Hage student. unfold post_students, Student_validate.
  replace ((10 <=? body_age body) && (body_age body <=? 15))%Z with true
    by (symmetry; apply andb_true_iff; lia).
  unfold create_student, bind, create_document.
  change (default "A2" (body_level body))
    with (match body_level body with Some l => l | None => "A2" end).
  fold student.
  destruct (gw_create_document gw "student" (MStudent student) (w_db w))
    as [[i|e] s]; reflexivity.
Qed.

(** X14 on a store that refuses the write. *)
Lemma registration_outcome_witness :
  post_students failing_write_gateway (student_body 12) fresh_world
  = (HttpError 500 "connection closed",
     World tt [CallCreate "student"
                 (MStudent {| Student.name := "Ana";
                              Student.age := 12;
                              Student.level := "A2";
                              Student.guardian_email := None;
                              Student.created_at := None |})]).
Proof.
  apply (registration_outcome failing_write_gateway (student_body 12) fresh_world).
  split; discriminate.
Defined.

(** X15: [list_students] answers with as many documents as the store
    returned, in the same order; each has lost its [_id] and carries under
    [id] the text of that [_id], or the text None when it had no [_id]
    (whatever it held under [id] before); every other field is unchanged.
    An exception of the store is answered with status 500 and its text. *)
Theorem list_students_exposes_id {store : Type}
    (get_documents : string -> option Z -> store -> result (list document) * store)
    (number_str : Q -> string) (limit : option Z) (s : store) :
  match get_documents "student" limit s with
  | (Raise e, s') =>
      list_students get_documents number_str limit s
      = (HttpError 500 (exn_message e), s')
  | (Ok docs, s') =>
      exists out : list document,
        list_students get_documents number_str limit s = (Http200 out, s')
        /\ length out = length docs
        /\ forall (i : nat) (d : document),
             docs !! i = Some d ->
             exists d' : document,
               out !! i = Some d'
               /\ d' !! "_id" = None
               /\ d' !! "id"
                  = Some (DText (match d !! "_id" with
                                 | Some v => docvalue_str number_str v
                                 | None => "None"
                                 end))
               /\ forall k : string, k <> "id" -> k <> "_id" -> d' !! k = d !! k
  end.
Proof.
  unfold list_students.
  destruct (get_documents "student" limit s) as [[docs|e] s']; [|reflexivity].
  eexists. split; [reflexivity|]. split; [apply length_map|].
  intros i d Hd. exists (expose_id number_str d).
  split.
  - change (map (expose_id number_str) docs) with (expose_id number_str <$> docs).
    rewrite list_lookup_fmap, Hd. reflexivity.
  - unfold expose_id, doc_id_str. split; [apply lookup_delete_eq|].
    split.
    + rewrite lookup_delete_ne by discriminate. apply lookup_insert_eq.
    + intros k Hid H_id.
      rewrite lookup_delete_ne by (intros E; apply H_id; symmetry; exact E).
      apply lookup_insert_ne. intros E. apply Hid. symmetry. exact E.
Qed.

(** ** get_progress: the report and the calls *)

Lemma numbers_not_number (vs : list docvalue) (v : docvalue) :
  In v vs -> (forall x, v <> DNum x) -> (forall n, v <> DInt n) ->
  exists e, numbers vs = Raise e.
Proof.
  induction vs as [|u vs IH]; intros Hin Hx Hn; [destruct Hin|].
  destruct Hin as [->|Hin].
  - destruct v as [x|n| |t];
      [exfalso; apply (Hx x); reflexivity|exfalso; apply (Hn n); reflexivity| |];
      eexists; reflexivity.
  - destruct (IH Hin Hx Hn) as [e He]. cbn [numbers].
    destruct u as [x|n| |t]; [rewrite He|rewrite He| |]; eexists; reflexivity.
Qed.

Lemma numbers_of_similarities (docs : list document) (xs : list pynumber) :
  Forall2 similarity_number docs xs ->
  numbers (map doc_similarity docs) = Ok xs.
Proof.
  induction 1 as [|d x docs xs Hd _ IH]; [reflexivity|].
  cbn [map numbers]. unfold doc_similarity at 1. unfold similarity_number in Hd.
  destruct (d !! "similarity") as [[y|n| |t]|]; cbn [default];
    try contradiction; subst x; rewrite IH; reflexivity.
Qed.

(** X16: once the three counts have succeeded, [get_progress] reports the
    counts of activity results and of chat messages (the count of
    pronunciation attempts is not reported) and an average that is 0 when
    the read raises, when there is no attempt, when some attempt holds a
    similarity that is no number, and when the sum or the division
    raises.  Otherwise the average is the sum of the similarities, a
    missing one taken as the int 0, over their number, rounded to two
    decimal places; when it is an infinity or NaN the answer is the status
    500 of a response that cannot be written. *)
Theorem get_progress_report {store : Type} (gw : Gateway store)
    (py_sum : list pynumber -> result pynumber) (student_id : string)
    (w : world store) (vocab chats attempts : nat) (s1 s2 s3 s4 : store)
    (found : result (list document)) :
  gw_count_documents gw "activityresult" student_id (w_db w) = (Ok vocab, s1) ->
  gw_count_documents gw "chatmessage" student_id s1 = (Ok chats, s2) ->
  gw_count_documents gw "pronunciationattempt" student_id s2 = (Ok attempts, s3) ->
  gw_find gw "pronunciationattempt" student_id s3 = (found, s4) ->
  let response := fst (get_progress gw py_sum student_id w) in
  let report avg :=
    Http200 {| Progress.student_id := student_id;
               Progress.vocabulary_growth := vocab;
               Progress.messages_exchanged := chats;
               Progress.avg_pronunciation_similarity := avg |} in
  (forall e, found = Raise e -> response = report 0%Q)
  /\ (found = Ok [] -> response = report 0%Q)
  /\ (forall docs d v,
         found = Ok docs -> In d docs -> d !! "similarity" = Some v ->
         (forall x, v <> DNum x) -> (forall n, v <> DInt n) ->
         response = report 0%Q)
  /\ (forall docs xs,
         found = Ok docs -> docs <> [] -> Forall2 similarity_number docs xs ->
         match py_sum xs with
         | Raise _ => response = report 0%Q
         | Ok total =>
             match py_truediv total (length docs) with
             | Raise _ => response = report 0%Q
             | Ok (Finite avg) => response = report (py_round avg 2)
             | Ok (Infinity _) | Ok NaN =>
                 response = HttpError 500 "Internal Server Error"
             end
         end).
Proof.
  intros H1 H2 H3 H4 response report. subst response report.
  unfold get_progress, bind, count_documents. rewrite H1. cbn [w_db w_calls].
  rewrite H2. cbn [w_db w_calls]. rewrite H3. cbn [w_db w_calls].
  unfold average_similarity, bind, find. cbn [w_db w_calls]. rewrite H4.
  unfold ret.
  split; [intros e ->; cbn [pyfloat_round]; rewrite py_round_0; reflexivity|].
  split; [intros ->; cbn [map pyfloat_round]; rewrite py_round_0; reflexivity|].
  split.
  - intros docs d v -> Hin Hv Hx Hn.
    destruct docs as [|d0 docs]; [destruct Hin|].
    assert (Hin' : In (doc_similarity d) (map doc_similarity (d0 :: docs)))
      by (apply in_map; exact Hin).
    assert (Hx' : forall x, doc_similarity d <> DNum x)
      by (unfold doc_similarity; rewrite Hv; exact Hx).
    assert (Hn' : forall n, doc_similarity d <> DInt n)
      by (unfold doc_similarity; rewrite Hv; exact Hn).
    destruct (numbers_not_number _ _ Hin' Hx' Hn') as [e He].
    unfold mean. cbn [map] in *. rewrite He.
    cbn [pyfloat_round]. rewrite py_round_0. reflexivity.
  - intros docs xs -> Hne Hall.
    destruct docs as [|d0 docs]; [contradiction|].
    unfold mean. rewrite (numbers_of_similarities _ _ Hall).
    rewrite length_map. cbn [map].
    destruct (py_sum xs) as [total|e].
    + destruct (py_truediv total (length (d0 :: docs))) as [[avg|negative|]|e];
        cbn [pyfloat_round]; try rewrite py_round_0; reflexivity.
    + cbn [pyfloat_round]. rewrite py_round_0. reflexivity.
Qed.

(** X16 with the sum of CPython before 3.12, on three stores: one attempt
    of 0.8 and one without a similarity average to 0.4; two attempts of
    [2^1023] sum to an infinity, and the answer is the status 500; an
    attempt whose similarity is null makes the average 0.0. *)
Lemma get_progress_report_witness :
  fst (get_progress
         (attempts_gateway [{["similarity" := DNum (3602879701896397 # 4503599627370496)]};
                            {["transcript" := DText "the cat"]}])
         left_to_right_sum "s1" fresh_world)
  = Http200 {| Progress.student_id := "s1";
               Progress.vocabulary_growth := 2;
               Progress.messages_exchanged := 2;
               Progress.avg_pronunciation_similarity :=
                 3602879701896397 # 9007199254740992 |}
  /\ fst (get_progress
            (attempts_gateway [{["similarity" := DNum (inject_Z (2 ^ 1023))]};
                               {["similarity" := DNum (inject_Z (2 ^ 1023))]}])
            left_to_right_sum "s1" fresh_world)
     = HttpError 500 "Internal Server Error"
  /\ fst (get_progress
            (attempts_gateway [{["similarity" := DInt 1]}; {["similarity" := DNull]}])
            left_to_right_sum "s1" fresh_world)
     = Http200 {| Progress.student_id := "s1";
                  Progress.vocabulary_growth := 2;
                  Progress.messages_exchanged := 2;
                  Progress.avg_pronunciation_similarity := 0 |}.
Proof.
  split; [|split].
  - pose proof (get_progress_report
                  (attempts_gateway
                     [{["similarity" := DNum (3602879701896397 # 4503599627370496)]};
                      {["transcript" := DText "the cat"]}])
                  left_to_right_sum "s1" fresh_world 2 2 2 tt tt tt tt _
                  eq_refl eq_refl eq_refl eq_refl) as H.
    cbv zeta in H. destruct H as (_ & _ & _ & H).
    specialize (H _ [PFloat (Finite (3602879701896397 # 4503599627370496)); PInt 0]
                  eq_refl ltac:(discriminate)).
    assert (F : Forall2 similarity_number
                  [{["similarity" := DNum (3602879701896397 # 4503599627370496)]};
                   {["transcript" := DText "the cat"]}]
                  [PFloat (Finite (3602879701896397 # 4503599627370496)); PInt 0])
      by (repeat constructor).
    specialize (H F).
    assert (E : left_to_right_sum
                  [PFloat (Finite (3602879701896397 # 4503599627370496)); PInt 0]
                = Ok (PFloat (Finite (3602879701896397 # 4503599627370496))))
      by (vm_compute; reflexivity).
    rewrite E in H.
    assert (D : py_truediv (PFloat (Finite (3602879701896397 # 4503599627370496))) 2
                = Ok (Finite (3602879701896397 # 9007199254740992)))
      by (vm_compute; reflexivity).
    cbn [length] in H. rewrite D in H. rewrite H.
    vm_compute. reflexivity.
  - pose proof (get_progress_report
                  (attempts_gateway
                     [{["similarity" := DNum (inject_Z (2 ^ 1023))]};
                      {["similarity" := DNum (inject_Z (2 ^ 1023))]}])
                  left_to_right_sum "s1" fresh_world 2 2 2 tt tt tt tt _
                  eq_refl eq_refl eq_refl eq_refl) as H.
    cbv zeta in H. destruct H as (_ & _ & _ & H).
    specialize (H _ [PFloat (Finite (inject_Z (2 ^ 1023)));
                     PFloat (Finite (inject_Z (2 ^ 1023)))]
                  eq_refl ltac:(discriminate)).
    assert (F : Forall2 similarity_number
                  [{["similarity" := DNum (inject_Z (2 ^ 1023))]};
                   {["similarity" := DNum (inject_Z (2 ^ 1023))]}]
                  [PFloat (Finite (inject_Z (2 ^ 1023)));
                   PFloat (Finite (inject_Z (2 ^ 1023)))])
      by (repeat constructor).
    specialize (H F).
    assert (E : left_to_right_sum
                  [PFloat (Finite (inject_Z (2 ^ 1023)));
                   PFloat (Finite (inject_Z (2 ^ 1023)))]
                = Ok (PFloat (Infinity false)))
      by (vm_compute; reflexivity).
    rewrite E in H. exact H.
  - pose proof (get_progress_report
                  (attempts_gateway
                     [{["similarity" := DInt 1]}; {["similarity" := DNull]}])
                  left_to_right_sum "s1" fresh_world 2 2 2 tt tt tt tt _
                  eq_refl eq_refl eq_refl eq_refl) as H.
    cbv zeta in H. destruct H as (_ & _ & H & _).
    apply (H _ {["similarity" := DNull]} DNull eq_refl).
    + right. left. reflexivity.
    + reflexivity.
    + intros x. discriminate.
    + intros n. discriminate.
Defined.

(** X17: [get_progress] only reads: it calls the three counts in order and
    then the read of the attempts, and stops at the first count that
    raises, which it answers with status 500; a 200 is answered only after
    all four calls. *)
Theorem get_progress_calls {store : Type} (gw : Gateway store)
    (py_sum : list pynumber -> result pynumber) (student_id : string)
    (w : world store) :
  exists n,
    1 <= n <= 4
    /\ w_calls (snd (get_progress gw py_sum student_id w))
       = (w_calls w
          ++ take n [CallCount "activityresult" student_id;
                     CallCount "chatmessage" student_id;
                     CallCount "pronunciationattempt" student_id;
                     CallFind "pronunciationattempt" student_id])%list
    /\ (n < 4 ->
        exists detail,
          fst (get_progress gw py_sum student_id w) = HttpError 500 detail)
    /\ ((exists body, fst (get_progress gw py_sum student_id w) = Http200 body) ->
        n = 4).
Proof.
  unfold get_progress, bind, count_documents.
  destruct (gw_count_documents gw "activityresult" student_id (w_db w))
    as [[vocab|e] s1]; cbn [w_db w_calls].
  2:{ exists 1. split; [lia|]. split; [reflexivity|].
      split; [intros _; eexists; reflexivity|intros [body H]; discriminate H]. }
  destruct (gw_count_documents gw "chatmessage" student_id s1)
    as [[chats|e] s2]; cbn [w_db w_calls].
  2:{ exists 2. split; [lia|]. split.
      - cbn [snd ret w_calls take]. unfold append. rewrite <- app_assoc. reflexivity.
      - split; [intros _; eexists; reflexivity|intros [body H]; discriminate H]. }
  destruct (gw_count_documents gw "pronunciationattempt" student_id s2)
    as [[attempts|e] s3]; cbn [w_db w_calls].
  2:{ exists 3. split; [lia|]. split.
      - cbn [snd ret w_calls take]. unfold append. rewrite <- !app_assoc. reflexivity.
      - split; [intros _; eexists; reflexivity|intros [body H]; discriminate H]. }
  unfold average_similarity, bind, find. cbn [w_db w_calls].
  destruct (gw_find gw "pronunciationattempt" student_id s3) as [found s4].
  exists 4. split; [lia|]. split.
  - unfold ret. cbv beta iota.
    match goal with
    | |- context [pyfloat_round ?x 2] => destruct (pyfloat_round x 2)
    end; cbn [snd w_calls take]; unfold append;
      rewrite <- !app_assoc; reflexivity.
  - split; [lia|reflexivity].
Qed.

(** ** test_database *)

Lemma str_head_length (n : nat) (s : string) : String.length (str_head n s) <= n.
Proof.
  revert s. induction n as [|n IH]; intros s; [cbn; lia|].
  destruct s as [|c s]; cbn [str_head String.length]; [lia|].
  specialize (IH s). lia.
Qed.

(** X18: whatever the database handle is and does, the diagnostic reports
    under [database_url] and [database_name] only whether the environment
    variables DATABASE_URL and DATABASE_NAME are set to a non-empty value:
    the name read from the handle never reaches the response. *)
Theorem test_database_reports_environment_only
    (db : option DbHandle) (env : gmap string string) :
  let report := test_database db env in
  Diagnostic.backend report = mark_running
  /\ Diagnostic.database_url report
     = Some (if getenv_set env "DATABASE_URL" then mark_set else mark_not_set)
  /\ Diagnostic.database_name report
     = Some (if getenv_set env "DATABASE_NAME" then mark_set else mark_not_set)
  /\ (forall name : string,
         getenv_set env name = true
         <-> exists v, env !! name = Some v /\ v <> "").
Proof.
  cbv zeta. split; [|split; [|split]].
  - unfold test_database, probe_database.
    destruct db as [handle|]; [|reflexivity].
    destruct (db_name handle) as [name|e]; [|reflexivity].
    destruct (db_list_collection_names handle); reflexivity.
  - reflexivity.
  - reflexivity.
  - intros name. unfold getenv_set. destruct (env !! name) as [v|].
    + destruct v as [|c v]; cbn [PyStr.truthy].
      * split; [discriminate|]. intros (v' & E & Hv). injection E as <-.
        contradiction.
      * split; [|reflexivity]. intros _. eexists. split; [reflexivity|discriminate].
    + split; [discriminate|]. intros (v' & E & _). discriminate E.
Qed.

(** X19: the diagnostic lists at most ten collections, the first ten the
    handle names, and none when there is no handle or the listing raises;
    it says Connected exactly when there is a handle whose name can be
    read; the text of an exception is cut to 80 characters. *)
Theorem test_database_bounded (db : option DbHandle) (env : gmap string string) :
  let report := test_database db env in
  length (Diagnostic.collections report) <= 10
  /\ match db with
     | None =>
         Diagnostic.collections report = []
         /\ Diagnostic.connection_status report = "Not Connected"
         /\ Diagnostic.database report = mark_not_initialized
     | Some handle =>
         match db_name handle with
         | Raise e =>
             Diagnostic.collections report = []
             /\ Diagnostic.connection_status report = "Not Connected"
             /\ Diagnostic.database report
                = String.append mark_error (str_head 80 (exn_message e))
             /\ String.length (str_head 80 (exn_message e)) <= 80
         | Ok _ =>
             Diagnostic.connection_status report = "Connected"
             /\ match db_list_collection_names handle with
                | Ok names =>
                    Diagnostic.collections report = take 10 names
                    /\ Diagnostic.database report = mark_working
                | Raise e =>
                    Diagnostic.collections report = []
                    /\ Diagnostic.database report
                       = String.append mark_connected_error
                           (str_head 80 (exn_message e))
                    /\ String.length (str_head 80 (exn_message e)) <= 80
                end
         end
     end.
Proof.
  cbv zeta. unfold test_database, probe_database.
  destruct db as [handle|].
  - destruct (db_name handle) as [name|e].
    + destruct (db_list_collection_names handle) as [names|e];
        cbn [Diagnostic.collections Diagnostic.connection_status Diagnostic.database
             set_database set_database_url set_database_name set_connection_status
             set_collections].
      * split; [rewrite length_take; lia|]. repeat split.
      * split; [cbn; lia|]. repeat split. apply str_head_length.
    + cbn [Diagnostic.collections Diagnostic.connection_status Diagnostic.database
           set_database set_database_url set_database_name set_connection_status
           set_collections].
      split; [cbn; lia|]. repeat split. apply str_head_length.
  - cbn [Diagnostic.collections Diagnostic.connection_status Diagnostic.database
         set_database set_database_url set_database_name set_connection_status
         set_collections].
    split; [cbn; lia|]. repeat split.
Qed.
